(** * brassicate: conda environment helpers (src/brassicate/conda/env.py)

    A shallow embedding of [writable], [find_env], [update_from_yml] and
    [set_env_vars].  The Python code is effectful: it touches and chmods
    files, prints, and shells out to conda.  It is embedded in a
    state-and-exception monad over a world made of a file system (a finite
    map from paths to nodes) and the trace of the calls the program itself
    makes.  What the standard library cannot decide from that world (the
    YAML and JSON decoders, the spawned conda process, the umask, the
    resolution of a path, and the calls the operating system turns down
    because of who owns what) is a field of a record [Lib] the code is run
    against. *)

From Stdlib Require Import ZArith String Ascii List.
From stdpp Require Import base option list gmap strings.

Local Open Scope Z_scope.
Set Warnings "-register-all".

(** ** Python values met by the code *)

(** What [yaml.load] can hand back, as far as the code looks at it. *)
Inductive pyobj : Type :=
  | PNone
  | PBool (b : bool)
  | PInt (z : Z)
  | PStr (s : string)
  | PList (l : list pyobj)
  | PDict (d : list (string * pyobj)).

Inductive exn : Type :=
  | FileNotFoundError
  | FileExistsError
  | NotADirectoryError
  | IsADirectoryError
  | PermissionError
  | KeyError
  | TypeError
  | ExternalError (tag : string).

Inductive Result (A : Type) : Type :=
  | Ok (a : A)
  | Raise (e : exn).
Arguments Ok {A} a.
Arguments Raise {A} e.

(** ** Strings: the [in] operator *)

(** [prefixb p s]: [s.startswith(p)]. *)
Fixpoint prefixb (p s : string) : bool :=
  match p, s with
  | EmptyString, _ => true
  | String _ _, EmptyString => false
  | String a p', String b s' => if Ascii.eqb a b then prefixb p' s' else false
  end.

(** [str_in sub s]: Python's [sub in s] on two strings, a substring test. *)
Fixpoint str_in (sub s : string) : bool :=
  if prefixb sub s then true
  else match s with
       | EmptyString => false
       | String _ s' => str_in sub s'
       end.

(** The mathematical reading: [sub] occurs somewhere inside [s]. *)
Definition substring_of (sub s : string) : Prop :=
  exists pre post, s = pre +:+ sub +:+ post.

(** [x in env_path] for an arbitrary left operand: only a string is
    accepted on the left of [in] when the right operand is a string. *)
Definition py_in (x : pyobj) (s : string) : Result bool :=
  match x with
  | PStr sub => Ok (str_in sub s)
  | _ => Raise TypeError
  end.

(** [x == "base"]. *)
Definition py_eq_str (x : pyobj) (s : string) : bool :=
  match x with
  | PStr t => String.eqb t s
  | _ => false
  end.

(** ** find_env: the search loop

    [for env_path in env_path_list: if env_name in env_path: return env_path]
    with the loop's [else: return None]. *)
Fixpoint find_env_loop (env_name : pyobj) (env_path_list : list string)
  : Result (option string) :=
  match env_path_list with
  | [] => Ok None
  | env_path :: rest =>
      match py_in env_name env_path with
      | Raise e => Raise e
      | Ok true => Ok (Some env_path)
      | Ok false => find_env_loop env_name rest
      end
  end.

(** ** Paths (pathlib, POSIX flavour)

    A path is the list of its parts, as [PurePath.parts] gives them; an
    absolute path starts with the part ["/"], or ["//"] when the string
    starts with exactly two slashes. *)
Abbreviation Path := (list string).

(** Split a string at every ["/"]; [cur] is the current segment, reversed. *)
Fixpoint split_slash (cur s : string) : list string :=
  match s with
  | EmptyString => [String.rev cur]
  | String c s' =>
      if Ascii.eqb c "/"%char then String.rev cur :: split_slash EmptyString s'
      else split_slash (String c cur) s'
  end.

(** Empty segments and ["."] segments are dropped when a string is parsed. *)
Definition keep_segment (seg : string) : bool :=
  negb (String.eqb seg "" || String.eqb seg ".").

Definition path_parts (s : string) : Path :=
  List.filter keep_segment (split_slash EmptyString s).

Definition is_absolute (s : string) : bool := prefixb "/" s.

(** The root of an absolute string: exactly two leading slashes are kept as
    the root ["//"], any other number of them is the root ["/"]. *)
Definition path_root (s : string) : string :=
  if prefixb "//" s && negb (prefixb "///" s) then "//" else "/".

(** [p / s]: an absolute right operand replaces the left one. *)
Definition joinpath (p : Path) (s : string) : Path :=
  if is_absolute s then path_root s :: path_parts s else p ++ path_parts s.

(** [Path(s)]. *)
Definition path_of_string (s : string) : Path := joinpath [] s.

(** [p.parent]; the root is its own parent, and so is the empty path. *)
Definition parent (p : Path) : Path :=
  match p with
  | ["/"] => ["/"]
  | ["//"] => ["//"]
  | _ => removelast p
  end.

(** The proper ancestors of a path, from the top down. *)
Fixpoint ancestors (p : Path) : list Path :=
  match p with
  | [] => []
  | c :: rest => [] :: List.map (cons c) (ancestors rest)
  end.

(** [p / x] where [x] is any object: only a string joins. *)
Definition truediv (p : Path) (x : pyobj) : Result Path :=
  match x with
  | PStr s => Ok (joinpath p s)
  | _ => Raise TypeError
  end.

(** [d / s] where [d] is what [Path.mkdir] returned, that is [None]. *)
Definition truediv_opt (d : option Path) (s : string) : Result Path :=
  match d with
  | Some p => Ok (joinpath p s)
  | None => Raise TypeError
  end.

(** [obj["key"]]. *)
Fixpoint assoc (k : string) (d : list (string * pyobj)) : option pyobj :=
  match d with
  | [] => None
  | (k', v) :: d' => if String.eqb k k' then Some v else assoc k d'
  end.

Definition getitem (obj : pyobj) (k : string) : Result pyobj :=
  match obj with
  | PDict d => match assoc k d with
               | Some v => Ok v
               | None => Raise KeyError
               end
  | _ => Raise TypeError
  end.

(** ** The file system and the world *)

Definition S_IREAD : Z := 256.   (* 0o400 *)
Definition S_IWRITE : Z := 128.  (* 0o200 *)

Inductive node : Type :=
  | Dir (mode : Z)
  | File (mode : Z) (data : string).

Definition node_mode (n : node) : Z :=
  match n with Dir m => m | File m _ => m end.

Definition set_mode (m : Z) (n : node) : node :=
  match n with Dir _ => Dir m | File _ d => File m d end.

Definition mode_of (f : gmap Path node) (p : Path) : option Z :=
  node_mode <$> f !! p.

(** No write bit at all (0o222), respectively the owner's write bit set. *)
Definition is_readonly (m : Z) : bool := Z.eqb (Z.land m 146) 0.
Definition is_writable (m : Z) : bool := Z.testbit m 7.

(** A piece of a formatted message: the f-string's literal text, an object
    interpolated with [{...}], or an interpolated path. *)
Inductive frag : Type :=
  | FLit (s : string)
  | FObj (o : pyobj)
  | FPath (p : Path).

(** The calls the program makes, in the order it makes them.  A call is
    recorded when it is made, whether or not it then fails. *)
Inductive event : Type :=
  | EvOpen (p : Path) (how : string)
  | EvWrite (p : Path) (data : string)
  | EvPrint (msg : list frag)
  | EvTouch (p : Path)
  | EvMkdir (p : Path)
  | EvChmod (p : Path) (mode : Z)
  | EvRun (cmd : string) (shell : bool).

Record World : Type := mkWorld {
  fs : gmap Path node;
  trace : list event
}.

(** The system calls that change the file system, as the operating system
    sees them. *)
Inductive oscall : Type :=
  | OsTouch (p : Path)
  | OsChmod (p : Path) (mode : Z)
  | OsMkdir (p : Path)
  | OsOpenW (p : Path)
  | OsWrite (p : Path).

(** What the code relies on and the file system does not decide.
    [refuses call f] is the error, if any, with which the operating system
    turns [call] down in the file system [f] for a reason the map of paths
    does not show: the caller does not own the file, a directory on the way
    cannot be searched or written, the file system is read-only. *)
Record Lib : Type := MkLib {
  umask : Z;
  resolve : gmap Path node -> Path -> Path;
  yaml_load : string -> Result pyobj;
  json_envs : string -> Result (list string);
  spawn : string -> bool -> gmap Path node -> Result string * gmap Path node;
  refuses : oscall -> gmap Path node -> option exn
}.

(** A library on an operating system that turns nothing down. *)
Definition mkLib (umask : Z) (resolve : gmap Path node -> Path -> Path)
    (yaml_load : string -> Result pyobj)
    (json_envs : string -> Result (list string))
    (spawn : string -> bool -> gmap Path node -> Result string * gmap Path node)
  : Lib :=
  MkLib umask resolve yaml_load json_envs spawn (fun _ _ => None).

Definition is_file (f : gmap Path node) (p : Path) : bool :=
  match f !! p with
  | Some (File _ _) => true
  | _ => false
  end.

(** The error of a call on a path that is not there: [NotADirectoryError]
    when the path goes through a regular file, [FileNotFoundError]
    otherwise. *)
Definition path_error (f : gmap Path node) (p : Path) : exn :=
  if existsb (is_file f) (ancestors p) then NotADirectoryError
  else FileNotFoundError.

(** ** The monad: state and exceptions *)

Definition M (A : Type) : Type := World -> Result A * World.

Definition ret {A} (a : A) : M A := fun w => (Ok a, w).

Definition bind {A B} (m : M A) (k : A -> M B) : M B :=
  fun w => match m w with
           | (Ok a, w') => k a w'
           | (Raise e, w') => (Raise e, w')
           end.

Definition raise {A} (e : exn) : M A := fun w => (Raise e, w).

Definition lift {A} (r : Result A) : M A := fun w => (r, w).

(** [try: m finally: f].  The [finally] block always runs; when it raises,
    its exception replaces whatever [m] produced. *)
Definition try_finally {A} (m : M A) (f : M unit) : M A :=
  fun w => match m w with
           | (r, w') => match f w' with
                        | (Ok _, w'') => (r, w'')
                        | (Raise e, w'') => (Raise e, w'')
                        end
           end.

Declare Scope py_scope.
Delimit Scope py_scope with py.
Notation "x <~ m ; k" := (bind m (fun x => k))
  (at level 100, m at next level, k at level 200, right associativity) : py_scope.
Notation "m ;> k" := (bind m (fun _ => k))
  (at level 100, k at level 200, right associativity) : py_scope.
Local Open Scope py_scope.

Definition emit (ev : event) : M unit :=
  fun w => (Ok tt, mkWorld (fs w) (trace w ++ [ev])).

(** Run a pure file-system step. *)
Definition on_fs (step : gmap Path node -> Result (gmap Path node)) : M unit :=
  fun w => match step (fs w) with
           | Ok f' => (Ok tt, mkWorld f' (trace w))
           | Raise e => (Raise e, w)
           end.

(** ** The operating-system and library calls *)

Section Program.

Variable L : Lib.

(** Mode of a freshly created file (0o666) or directory (0o777) under the
    process umask. *)
Definition new_file_mode : Z := Z.land 438 (Z.lnot (umask L)).
Definition new_dir_mode : Z := Z.land 511 (Z.lnot (umask L)).

(** Create an entry at a path that does not exist yet, once the operating
    system has let the call through: the parent has to be a directory. *)
Definition create_at (p : Path) (n : node) (f : gmap Path node)
  : Result (gmap Path node) :=
  match f !! parent p with
  | Some (Dir _) => Ok (<[p := n]> f)
  | _ => Raise (path_error f p)
  end.

(** [Path.touch(p)]: unless the operating system turns it down, an existing
    entry is left as it is (only its times change) and a missing one is
    created empty. *)
Definition touch_step (p : Path) (f : gmap Path node) : Result (gmap Path node) :=
  match refuses L (OsTouch p) f with
  | Some e => Raise e
  | None =>
      match f !! p with
      | Some _ => Ok f
      | None => create_at p (File new_file_mode "") f
      end
  end.

Definition touch (p : Path) : M unit :=
  emit (EvTouch p) ;> on_fs (touch_step p).

(** [os.chmod(p, mode)]: unless the operating system turns it down, the
    permission bits become exactly [mode]. *)
Definition chmod_step (p : Path) (m : Z) (f : gmap Path node)
  : Result (gmap Path node) :=
  match refuses L (OsChmod p m) f with
  | Some e => Raise e
  | None =>
      match f !! p with
      | Some n => Ok (<[p := set_mode m n]> f)
      | None => Raise (path_error f p)
      end
  end.

Definition chmod (p : Path) (m : Z) : M unit :=
  emit (EvChmod p m) ;> on_fs (chmod_step p m).

(** [os.mkdir(p)]. *)
Definition os_mkdir (p : Path) (f : gmap Path node) : Result (gmap Path node) :=
  match refuses L (OsMkdir p) f with
  | Some e => Raise e
  | None =>
      match f !! p with
      | Some _ => Raise FileExistsError
      | None => create_at p (Dir new_dir_mode) f
      end
  end.

Definition is_dir (f : gmap Path node) (p : Path) : bool :=
  match f !! p with
  | Some (Dir _) => true
  | _ => false
  end.

Definition path_eqb (p q : Path) : bool := bool_decide (p = q).

(** [Path.mkdir(parents=True, exist_ok=True)], as pathlib writes it: try
    [os.mkdir]; when the parent is missing, make the parent the same way and
    try again; any other error is forgiven when the path is a directory.
    The recursion goes up the path, so its length bounds the depth. *)
Fixpoint mkdir_go (depth : nat) (p : Path) (f : gmap Path node)
  : Result (gmap Path node) :=
  match os_mkdir p f with
  | Ok f' => Ok f'
  | Raise FileNotFoundError =>
      match depth with
      | O => Raise FileNotFoundError
      | S d =>
          if path_eqb (parent p) p then Raise FileNotFoundError
          else match mkdir_go d (parent p) f with
               | Raise e => Raise e
               | Ok f1 =>
                   match os_mkdir p f1 with
                   | Ok f2 => Ok f2
                   | Raise FileNotFoundError => Raise FileNotFoundError
                   | Raise e => if is_dir f1 p then Ok f1 else Raise e
                   end
               end
      end
  | Raise e => if is_dir f p then Ok f else Raise e
  end.

(** The call returns [None]. *)
Definition mkdir_parents (p : Path) : M (option Path) :=
  emit (EvMkdir p) ;> on_fs (mkdir_go (length p) p) ;> ret None.

(** [open(p)] followed by reading the whole file, by a process that may
    read the file when it is there. *)
Definition open_read (p : Path) : M string :=
  emit (EvOpen p "r") ;>
  fun w => match fs w !! p with
           | Some (File _ data) => (Ok data, w)
           | Some (Dir _) => (Raise IsADirectoryError, w)
           | None => (Raise (path_error (fs w) p), w)
           end.

(** [open(p, "w+")]: the file is created if missing and emptied. *)
Definition truncate_step (p : Path) (f : gmap Path node)
  : Result (gmap Path node) :=
  match refuses L (OsOpenW p) f with
  | Some e => Raise e
  | None =>
      match f !! p with
      | Some (File m _) => Ok (<[p := File m ""]> f)
      | Some (Dir _) => Raise IsADirectoryError
      | None => create_at p (File new_file_mode "") f
      end
  end.

Definition open_truncate (p : Path) : M unit :=
  emit (EvOpen p "w+") ;> on_fs (truncate_step p).

(** [f.writelines(lines)] on the file opened at [p]. *)
Definition append_step (p : Path) (text : string) (f : gmap Path node)
  : Result (gmap Path node) :=
  match refuses L (OsWrite p) f with
  | Some e => Raise e
  | None =>
      match f !! p with
      | Some (File m data) => Ok (<[p := File m (data +:+ text)]> f)
      | Some (Dir _) => Raise IsADirectoryError
      | None => Raise (path_error f p)
      end
  end.

Definition writelines (p : Path) (lines : list string) : M unit :=
  let text := fold_right String.append "" lines in
  emit (EvWrite p text) ;> on_fs (append_step p text).

Definition print (msg : list frag) : M unit := emit (EvPrint msg).

(** [p.resolve()]. *)
Definition path_resolve (p : Path) : M Path :=
  fun w => (Ok (resolve L (fs w) p), w).

(** [subprocess.run(cmd, shell=...)]: the child process may change the file
    system; what it wrote on its standard output is returned. *)
Definition subprocess_run (cmd : string) (shell : bool) : M string :=
  emit (EvRun cmd shell) ;>
  fun w => match spawn L cmd shell (fs w) with
           | (r, f') => (r, mkWorld f' (trace w))
           end.

(** ** writable *)

Definition canary (root : Path) : Path :=
  joinpath (joinpath root "conda-meta") "history".

(** The statements of the [try] block before [yield]. *)
Definition writable_enter (base_canaryfile : Path)
    (env_canaryfile : option Path) : M unit :=
  touch base_canaryfile ;>
  chmod base_canaryfile S_IWRITE ;>
  match env_canaryfile with
  | Some env_canaryfile =>
      mkdir_parents (parent env_canaryfile) ;>
      touch env_canaryfile ;>
      chmod env_canaryfile S_IWRITE
  | None => ret tt
  end.

(** The [finally] block. *)
Definition writable_exit (enforce_readonly : bool) (base_canaryfile : Path)
    (env_canaryfile : option Path) : M unit :=
  if enforce_readonly then
    chmod base_canaryfile S_IREAD ;>
    match env_canaryfile with
    | Some env_canaryfile => chmod env_canaryfile S_IREAD
    | None => ret tt
    end
  else ret tt.

(** [env_canaryfile] is bound only when [env_name] is not ["base"]. *)
Definition env_canary_of (env_name : pyobj) (conda_prefix : Path)
  : Result (option Path) :=
  if negb (py_eq_str env_name "base") then
    match truediv (joinpath conda_prefix "envs") env_name with
    | Ok d => Ok (Some (canary d))
    | Raise e => Raise e
    end
  else Ok None.

(** [with writable(env_name, enforce_readonly, conda_prefix): body]. *)
Definition writable {A} (env_name : pyobj) (enforce_readonly : bool)
    (conda_prefix : Path) (body : M A) : M A :=
  let base_canaryfile := canary conda_prefix in
  env_canaryfile <~ lift (env_canary_of env_name conda_prefix) ;
  try_finally
    (writable_enter base_canaryfile env_canaryfile ;> body)
    (writable_exit enforce_readonly base_canaryfile env_canaryfile).

(** ** find_env *)

Definition find_env (env_name : pyobj) : M (option string) :=
  out <~ subprocess_run "conda info --json" true ;
  env_path_list <~ lift (json_envs L out) ;
  lift (find_env_loop env_name env_path_list).

(** ** update_from_yml *)

Definition update_cmd : string := "conda env update --file environment.yml --prune".
Definition create_cmd : string := "conda env create --file environment.yml".

Definition found_msg (env_name : pyobj) (resolved : Path) : list frag :=
  [FLit "Found environment file for "; FObj env_name; FLit " at "; FPath resolved].

Definition create_msg (env_name : pyobj) : list frag :=
  [FLit "Environment "; FObj env_name; FLit " doesn't exist, so create it..."].

Definition update_or_create (env_name : pyobj) (env_path : option string)
  : M unit :=
  match env_path with
  | Some _ => subprocess_run update_cmd false ;> ret tt
  | None =>
      print (create_msg env_name) ;>
      subprocess_run create_cmd false ;> ret tt
  end.

Definition update_from_yml (yml_file : Path) (enforce_readonly : bool)
    (conda_prefix : Path) : M unit :=
  text <~ open_read yml_file ;
  environment_yml <~ lift (yaml_load L text) ;
  env_name <~ lift (getitem environment_yml "name") ;
  resolved <~ path_resolve yml_file ;
  print (found_msg env_name resolved) ;>
  env_path <~ find_env env_name ;
  writable env_name enforce_readonly conda_prefix
    (update_or_create env_name env_path).

(** ** set_env_vars *)

(** [buf += s] where [buf] is a list and [s] a string: the list is extended
    with the characters of [s], one element each. *)
Definition chars (s : string) : list string :=
  List.map (fun c => String c EmptyString) (list_ascii_of_string s).

Definition extend (buf : list string) (s : string) : list string :=
  buf ++ chars s.

Definition nl : string := String (ascii_of_nat 10) EmptyString.

Record scripts : Type := mkScripts {
  activate_sh : list string;
  activate_bat : list string;
  deactivate_sh : list string;
  deactivate_bat : list string
}.

Definition skeleton : scripts :=
  mkScripts ["#!/bin/sh" +:+ nl] [""] ["#!/bin/sh" +:+ nl] [""].

(** One turn of [for var, val in env_vars.items()]. *)
Definition add_var (s : scripts) (kv : string * string) : scripts :=
  let '(var, val) := kv in
  mkScripts
    (extend (activate_sh s) ("export " +:+ var +:+ "=" +:+ val +:+ nl))
    (extend (activate_bat s) ("set " +:+ var +:+ "=" +:+ val +:+ nl))
    (extend (deactivate_sh s) ("unset " +:+ var +:+ nl))
    (extend (deactivate_bat s) ("set " +:+ var +:+ "=" +:+ nl)).

Definition format_scripts (env_vars : list (string * string)) : scripts :=
  fold_left add_var env_vars skeleton.

(** [with open(d / name, "w+") as f: f.writelines(lines)]. *)
Definition write_script (d : option Path) (name : string)
    (lines : list string) : M unit :=
  p <~ lift (truediv_opt d name) ;
  open_truncate p ;>
  writelines p lines.

Definition set_env_vars (env_vars : list (string * string)) (env_path : Path)
  : M unit :=
  let s := format_scripts env_vars in
  activate_dir <~ mkdir_parents (joinpath env_path "etc/conda/activate.d") ;
  write_script activate_dir "env_vars.sh" (activate_sh s) ;>
  write_script activate_dir "env_vars.bat" (activate_bat s) ;>
  deactivate_dir <~ mkdir_parents (joinpath env_path "etc/conda/deactivate.d") ;
  write_script deactivate_dir "env_vars.sh" (deactivate_sh s) ;>
  write_script deactivate_dir "env_vars.bat" (deactivate_bat s).

End Program.

(** ** A small installation to run the code on

    A conda stand-in that keeps its list of environments in a registry file,
    prints that file for [conda info --json] and, for [conda env create],
    registers the environment named by the file it is GIVEN on its command
    line, namely [environment.yml] in the working directory. *)
Module Demo.

Definition cwd : Path := ["/"; "home"; "dev"; "work"].
Definition conda_prefix : Path := ["/"; "opt"; "conda"].
Definition registry : Path := ["/"; "home"; "dev"; ".conda"; "environments.txt"].

Definition demo_resolve (_ : gmap Path node) (p : Path) : Path :=
  match p with
  | "/" :: _ => p
  | "//" :: _ => p
  | _ => cwd ++ p
  end.

(** The manifests that occur below, with what a YAML reader makes of them. *)
Definition proj_yml : string := "name: proj" +:+ nl +:+ "dependencies: [numpy]" +:+ nl.
Definition other_yml : string := "name: other" +:+ nl +:+ "dependencies: [scipy]" +:+ nl.
Definition nodeps_yml : string := "name: proj" +:+ nl +:+ "dependencies: []" +:+ nl.
Definition noname_yml : string := "dependencies: [numpy]" +:+ nl.

Definition demo_yaml (text : string) : Result pyobj :=
  if String.eqb text proj_yml then
    Ok (PDict [("name", PStr "proj"); ("dependencies", PList [PStr "numpy"])])
  else if String.eqb text other_yml then
    Ok (PDict [("name", PStr "other"); ("dependencies", PList [PStr "scipy"])])
  else if String.eqb text nodeps_yml then
    Ok (PDict [("name", PStr "proj"); ("dependencies", PList [])])
  else if String.eqb text noname_yml then
    Ok (PDict [("dependencies", PList [PStr "numpy"])])
  else Raise (ExternalError "YAMLError").

(** The registry holds one environment path per line. *)
Fixpoint lines_go (cur s : string) : list string :=
  match s with
  | EmptyString => [String.rev cur]
  | String c s' =>
      if Ascii.eqb c (ascii_of_nat 10) then String.rev cur :: lines_go EmptyString s'
      else lines_go (String c cur) s'
  end.

Definition demo_envs (out : string) : Result (list string) :=
  Ok (List.filter (fun l => negb (String.eqb l "")) (lines_go EmptyString out)).

Definition register (n : string) (f : gmap Path node) : gmap Path node :=
  let line := "/opt/conda/envs/" +:+ n +:+ nl in
  match f !! registry with
  | Some (File m data) => <[registry := File m (data +:+ line)]> f
  | _ => f
  end.

Definition demo_spawn (cmd : string) (shell : bool) (f : gmap Path node)
  : Result string * gmap Path node :=
  if String.eqb cmd "conda info --json" then
    match f !! registry with
    | Some (File _ data) => (Ok data, f)
    | _ => (Ok "", f)
    end
  else if String.eqb cmd create_cmd then
    match f !! ["environment.yml"] with
    | Some (File _ text) =>
        match demo_yaml text with
        | Ok (PDict d) =>
            match assoc "name" d with
            | Some (PStr n) => (Ok "", register n f)
            | _ => (Ok "", f)
            end
        | _ => (Ok "", f)
        end
    | _ => (Ok "", f)
    end
  else (Ok "", f).

Definition lib : Lib := mkLib 18 demo_resolve demo_yaml demo_envs demo_spawn.

(** [demo_spawn] starts a command line handed over as one string with or
    without a shell, as Windows does.  On POSIX a string handed over without
    a shell is the name of the program to start, and no program is called
    [conda env create --file environment.yml]: the call raises
    [FileNotFoundError] and conda is not started. *)
Definition posix_spawn (cmd : string) (shell : bool) (f : gmap Path node)
  : Result string * gmap Path node :=
  if negb shell && str_in " " cmd then (Raise FileNotFoundError, f)
  else demo_spawn cmd shell f.

Definition posix_lib : Lib :=
  mkLib 18 demo_resolve demo_yaml demo_envs posix_spawn.

(** Directories of a fresh installation with no environment yet. *)
Definition dirs : list (Path * node) :=
  [ (["/"], Dir 493);
    (["/"; "opt"], Dir 493);
    (["/"; "opt"; "conda"], Dir 493);
    (["/"; "opt"; "conda"; "conda-meta"], Dir 493);
    (["/"; "home"], Dir 493);
    (["/"; "home"; "dev"], Dir 493);
    (["/"; "home"; "dev"; ".conda"], Dir 493);
    (registry, File 420 "");
    ([], Dir 493) ].

Definition world_of (files : list (Path * node)) : World :=
  mkWorld (list_to_map (files ++ dirs)) [].

(** The working directory holds [environment.yml] naming [proj]. *)
Definition w_proj : World := world_of [ (["environment.yml"], File 420 proj_yml) ].

(** The manifest has an empty dependency list. *)
Definition w_nodeps : World := world_of [ (["environment.yml"], File 420 nodeps_yml) ].

(** The manifest has no name. *)
Definition w_noname : World := world_of [ (["environment.yml"], File 420 noname_yml) ].

(** The manifest handed to the code is [proj.yml]; [environment.yml] in the
    working directory describes another environment. *)
Definition w_two : World :=
  world_of [ (["proj.yml"], File 420 proj_yml);
             (["environment.yml"], File 420 other_yml) ].

End Demo.

(** ** Vocabulary of the statements *)

(** The path a file-system call is made against. *)
Definition event_path (ev : event) : option Path :=
  match ev with
  | EvOpen p _ => Some p
  | EvWrite p _ => Some p
  | EvTouch p => Some p
  | EvMkdir p => Some p
  | EvChmod p _ => Some p
  | EvPrint _ => None
  | EvRun _ _ => None
  end.

(** Calls that can change something outside the process: everything but
    printing and opening a file for reading. *)
Definition mutating (ev : event) : bool :=
  match ev with
  | EvPrint _ => false
  | EvOpen _ how => negb (String.eqb how "r")
  | _ => true
  end.

(** [emits P m]: whatever the world, [m] only appends calls to the trace,
    and every call it appends satisfies [P]. *)
Definition emits (P : event -> Prop) {A} (m : M A) : Prop :=
  forall w, exists evs, trace (snd (m w)) = trace w ++ evs /\ Forall P evs.

Definition is_run (cmd : string) (ev : event) : bool :=
  match ev with
  | EvRun c _ => String.eqb c cmd
  | _ => false
  end.

(** How many times [cmd] was handed to [subprocess.run]. *)
Definition count_runs (cmd : string) (evs : list event) : nat :=
  length (List.filter (is_run cmd) evs).

(** The canary of the named environment, bound when the name is not
    ["base"]. *)
Definition env_canary (n : string) (conda_prefix : Path) : option Path :=
  if String.eqb n "base" then None
  else Some (canary (joinpath (joinpath conda_prefix "envs") n)).

(** The canary files the guard is about: the base one always, and the named
    environment's when the name is not ["base"]. *)
Definition canaries (n : string) (conda_prefix : Path) : list Path :=
  canary conda_prefix :: option_list (env_canary n conda_prefix).

(** Read-only when [enforce_readonly] is true, writable when it is false. *)
Definition expected_mode (enforce_readonly : bool) : Z :=
  if enforce_readonly then S_IREAD else S_IWRITE.

(** [os.remove(p)] and a body that raises, to run inside the guard. *)
Definition os_remove (p : Path) : M unit :=
  fun w => match fs w !! p with
           | Some (File _ _) => (Ok tt, mkWorld (delete p (fs w)) (trace w))
           | Some (Dir _) => (Raise IsADirectoryError, w)
           | None => (Raise (path_error (fs w) p), w)
           end.

Definition failing_body : M unit := raise (ExternalError "CalledProcessError").

(** The guard's promise read for every body whatsoever: once the body has
    been run inside the guard, each canary has the expected permission bits
    after the guard's exit. *)
Definition restores_after_every_body (enforce_readonly : bool) : Prop :=
  forall (L : Lib) (n : string) (conda_prefix : Path)
         (body : M unit) (w w1 w2 : World) (r : Result unit),
    writable_enter L (canary conda_prefix) (env_canary n conda_prefix) w
      = (Ok tt, w1) ->
    body w1 = (r, w2) ->
    forall c, In c (canaries n conda_prefix) ->
      mode_of (fs (snd (writable L (PStr n) enforce_readonly conda_prefix body w))) c
        = Some (expected_mode enforce_readonly).

(** What a call made by [update_from_yml yml_file ...] may be: the only file
    opened is [yml_file], for reading, and the only command lines handed to
    [subprocess.run] are the three literal ones. *)
Definition sync_call (yml_file : Path) (ev : event) : Prop :=
  match ev with
  | EvOpen p how => p = yml_file /\ how = "r"
  | EvRun cmd shell =>
      (cmd = "conda info --json" /\ shell = true) \/
      (cmd = "conda env update --file environment.yml --prune" /\ shell = false) \/
      (cmd = "conda env create --file environment.yml" /\ shell = false)
  | _ => True
  end.

(** A call of the guard itself is a call against the path [c]. *)
Definition against (c : Path) (ev : event) : Prop := event_path ev = Some c.

(** [keeps f f']: every entry of [f] is still there, unchanged, in [f']. *)
Definition keeps (f f' : gmap Path node) : Prop :=
  forall q n, f !! q = Some n -> f' !! q = Some n.

(** The calls of a successful entry into the guard, in order. *)
Definition enter_events (base_canaryfile : Path) (env_canaryfile : option Path)
  : list event :=
  [EvTouch base_canaryfile; EvChmod base_canaryfile S_IWRITE] ++
  match env_canaryfile with
  | Some e => [EvMkdir (parent e); EvTouch e; EvChmod e S_IWRITE]
  | None => []
  end.

(** The calls of the guarded block of [update_from_yml], given what
    [find_env] returned. *)
Definition body_events (env_name : pyobj) (env_path : option string)
  : list event :=
  match env_path with
  | Some _ => [EvRun update_cmd false]
  | None => [EvPrint (create_msg env_name); EvRun create_cmd false]
  end.

(** A call of the guard's exit: a chmod to read-only. *)
Definition exit_call (ev : event) : Prop := exists p, ev = EvChmod p S_IREAD.

(** The calls of [update_from_yml] before it enters the guard. *)
Definition head_events (yml_file : Path) (env_name : pyobj) (resolved : Path)
  : list event :=
  [EvOpen yml_file "r"; EvPrint (found_msg env_name resolved);
   EvRun "conda info --json" true].

(** [only_adds_dirs f f']: [f'] is [f] with, at most, directories added at
    paths that were free. *)
Definition only_adds_dirs (f f' : gmap Path node) : Prop :=
  forall q, f' !! q = f !! q \/ (f !! q = None /\ exists m, f' !! q = Some (Dir m)).

(** Two nodes of the same kind with the same content: they differ at most
    in their permission bits. *)
Definition same_content (n n' : node) : Prop := set_mode 0 n = set_mode 0 n'.

(** [guard_frame cs f f']: from [f] to [f'] no entry was removed and none
    changed kind or content; only entries at the paths [cs] may have other
    permission bits; what is new is a directory, or an empty file at one of
    the paths [cs]. *)
Definition guard_frame (cs : list Path) (f f' : gmap Path node) : Prop :=
  forall q,
    match f !! q with
    | Some n =>
        exists n', f' !! q = Some n' /\ same_content n n' /\ (~ In q cs -> n' = n)
    | None =>
        f' !! q = None \/ (exists m, f' !! q = Some (Dir m)) \/
        (In q cs /\ exists m, f' !! q = Some (File m ""))
    end.

(** [only_chmods cs m f f']: from [f] to [f'] nothing was added and nothing
    removed; an entry is what it was, or it is one of the paths [cs] and has
    been given the permission bits [m], kind and content unchanged. *)
Definition only_chmods (cs : list Path) (m : Z) (f f' : gmap Path node) : Prop :=
  forall q,
    f' !! q = f !! q \/
    (In q cs /\ exists n, f !! q = Some n /\ f' !! q = Some (set_mode m n)).

(** A call the guard for the environment [n] may make: touch a canary, set
    a canary's permission bits to [S_IWRITE] or [S_IREAD], or make the
    directory that holds the named environment's canary. *)
Definition guard_call (n : string) (conda_prefix : Path) (ev : event) : Prop :=
  match ev with
  | EvTouch p => In p (canaries n conda_prefix)
  | EvChmod p m =>
      In p (canaries n conda_prefix) /\ (m = S_IWRITE \/ m = S_IREAD)
  | EvMkdir p => exists e, env_canary n conda_prefix = Some e /\ p = parent e
  | _ => False
  end.


Definition w_envs_file : World :=
  mkWorld (<[["/"; "opt"; "conda"; "envs"] := File 420 ""]> (fs Demo.w_proj)) [].

(** What [f.writelines(buf)] writes: the elements of the buffer, joined. *)
Definition joined (buf : list string) : string := fold_right String.append "" buf.

(** The script lines one variable stands for. *)
Definition export_line (kv : string * string) : string :=
  "export " +:+ fst kv +:+ "=" +:+ snd kv +:+ nl.
Definition unset_line (kv : string * string) : string :=
  "unset " +:+ fst kv +:+ nl.
Definition set_line (kv : string * string) : string :=
  "set " +:+ fst kv +:+ "=" +:+ snd kv +:+ nl.
Definition clear_line (kv : string * string) : string :=
  "set " +:+ fst kv +:+ "=" +:+ nl.

(** A script: its first line, then one line per variable, in order. *)
Definition script_text (header : string) (line : string * string -> string)
    (env_vars : list (string * string)) : string :=
  header +:+ joined (List.map line env_vars).

(** [L] with another YAML reader. *)
Definition with_yaml (L : Lib) (reader : string -> Result pyobj) : Lib :=
  MkLib (umask L) (resolve L) reader (json_envs L) (spawn L) (refuses L).

(** An object that is not a string. *)
Definition is_str (x : pyobj) : bool :=
  match x with PStr _ => true | _ => false end.

(** The world [yml] is synchronised in, once [update_from_yml] has printed
    its message and asked conda for its environments, and then once the
    guard has been entered for the environment [n]. *)
Definition listed (L : Lib) (yml : Path) (env_name : pyobj) (w : World) : World :=
  snd (find_env L env_name
         (mkWorld (fs w)
            (trace w ++
             [EvOpen yml "r";
              EvPrint (found_msg env_name (resolve L (fs w) yml))]))).

Definition entered (L : Lib) (n : string) (conda_prefix : Path) (w : World)
  : World :=
  snd (writable_enter L (canary conda_prefix) (env_canary n conda_prefix) w).

(** The files opened and the command lines handed to [subprocess.run]
    among the calls [evs], in order. *)
Fixpoint opens (evs : list event) : list (Path * string) :=
  match evs with
  | [] => []
  | EvOpen p how :: rest => (p, how) :: opens rest
  | _ :: rest => opens rest
  end.

Fixpoint commands (evs : list event) : list (string * bool) :=
  match evs with
  | [] => []
  | EvRun cmd shell :: rest => (cmd, shell) :: commands rest
  | _ :: rest => commands rest
  end.

(** * Properties *)

(** ** Facts about the substring test *)

Lemma prefixb_app (p s : string) :
  prefixb p s = true <-> exists post, s = p +:+ post.
Proof.
  revert s. induction p as [|a p IH]; intros s; simpl.
  - split; [intros _; exists s; reflexivity | reflexivity].
  - destruct s as [|b s]; simpl.
    + split; [discriminate | intros [post H]; discriminate].
    + destruct (Ascii.eqb a b) eqn:E.
      * apply Ascii.eqb_eq in E. subst b. rewrite IH. split.
        -- intros [post ->]. exists post. reflexivity.
        -- intros [post H]. injection H as H. exists post. exact H.
      * split; [discriminate |].
        intros [post H]. injection H as H1 H2. subst b.
        rewrite Ascii.eqb_refl in E. discriminate.
Qed.

Lemma str_in_spec (sub s : string) :
  str_in sub s = true <-> substring_of sub s.
Proof.
  unfold substring_of. induction s as [|c s IH]; simpl.
  - destruct (prefixb sub EmptyString) eqn:E.
    + split; [intros _ | reflexivity].
      apply prefixb_app in E as [post E]. exists EmptyString, post. exact E.
    + split; [discriminate |].
      intros [pre [post H]]. destruct pre; simpl in H.
      * assert (prefixb sub EmptyString = true) as E'
          by (apply prefixb_app; exists post; exact H).
        congruence.
      * discriminate.
  - destruct (prefixb sub (String c s)) eqn:E.
    + split; [intros _ | reflexivity].
      apply prefixb_app in E as [post E]. exists EmptyString, post. exact E.
    + rewrite IH. split.
      * intros [pre [post ->]]. exists (String c pre), post. reflexivity.
      * intros [pre [post H]]. destruct pre as [|c' pre]; simpl in H.
        -- assert (prefixb sub (String c s) = true) as E'
             by (apply prefixb_app; exists post; exact H).
           congruence.
        -- injection H as _ H. exists pre, post. exact H.
Qed.

Lemma str_in_false (sub s : string) :
  str_in sub s = false <-> ~ substring_of sub s.
Proof.
  rewrite <- str_in_spec. destruct (str_in sub s); split; congruence.
Qed.

Lemma str_in_empty (s : string) : str_in EmptyString s = true.
Proof. destruct s; reflexivity. Qed.

(** On a string name the loop is a plain first-match search. *)
Lemma find_env_loop_str (n : string) (l : list string) :
  find_env_loop (PStr n) l = Ok (List.find (str_in n) l).
Proof.
  induction l as [|p l IH]; simpl; [reflexivity |].
  destruct (str_in n p); [reflexivity | exact IH].
Qed.

(** The first-match search, read on the list. *)
Lemma find_str_in_Some (n p : string) (l : list string) :
  List.find (str_in n) l = Some p <->
  exists before after,
    l = before ++ p :: after /\ substring_of n p /\
    Forall (fun q => ~ substring_of n q) before.
Proof.
  induction l as [|q l IH]; simpl.
  - split; [discriminate |].
    intros (before & after & H & _). destruct before; discriminate.
  - destruct (str_in n q) eqn:E.
    + split.
      * intros [= ->]. exists [], l. repeat split; [|constructor].
        apply str_in_spec, E.
      * intros (before & after & H & Hp & Hb).
        destruct before as [|b before]; simpl in H.
        -- congruence.
        -- injection H as -> _. inversion Hb as [|? ? Hq _]; subst.
           apply str_in_spec in E. contradiction.
    + rewrite IH. split.
      * intros (before & after & -> & Hp & Hb).
        exists (q :: before), after. repeat split; [exact Hp |].
        constructor; [apply str_in_false, E | exact Hb].
      * intros (before & after & H & Hp & Hb).
        destruct before as [|b before]; simpl in H.
        -- injection H as -> _. apply str_in_false in E. contradiction.
        -- injection H as _ ->. inversion Hb; subst.
           exists before, after. repeat split; assumption.
Qed.

Lemma find_str_in_None (n : string) (l : list string) :
  List.find (str_in n) l = None <-> Forall (fun q => ~ substring_of n q) l.
Proof.
  induction l as [|q l IH]; simpl.
  - split; [constructor | reflexivity].
  - destruct (str_in n q) eqn:E.
    + split; [discriminate |].
      intros H. inversion H as [|? ? Hq _]; subst.
      apply str_in_spec in E. contradiction.
    + rewrite IH. split.
      * intros H. constructor; [apply str_in_false, E | exact H].
      * intros H. inversion H; assumption.
Qed.

(** ** find_env *)

(** What [find_env] does once the query has answered with [paths]. *)
Lemma find_env_run (L : Lib) (env_name : pyobj) (w : World)
    (out : string) (f' : gmap Path node) (paths : list string) :
  spawn L "conda info --json" true (fs w) = (Ok out, f') ->
  json_envs L out = Ok paths ->
  find_env L env_name w =
    (find_env_loop env_name paths,
     mkWorld f' (trace w ++ [EvRun "conda info --json" true])).
Proof.
  intros Hs Hj. unfold find_env, subprocess_run, bind, emit, lift. simpl.
  rewrite Hs, Hj. destruct (find_env_loop env_name paths); reflexivity.
Qed.

(** C3. Whatever list of paths the conda query returns, [find_env n]
    returns a path exactly when some entry has [n] as a substring, the path
    returned is the first such entry of the list, and [None] is returned
    exactly when no entry contains [n]. *)
Theorem find_env_first_match (L : Lib) (n : string) (w : World)
    (out : string) (f' : gmap Path node) (paths : list string) :
  spawn L "conda info --json" true (fs w) = (Ok out, f') ->
  json_envs L out = Ok paths ->
  exists r w',
    find_env L (PStr n) w = (Ok r, w') /\
    (is_Some r <-> Exists (substring_of n) paths) /\
    (forall p, r = Some p <->
       exists before after,
         paths = before ++ p :: after /\ substring_of n p /\
         Forall (fun q => ~ substring_of n q) before) /\
    (r = None <-> Forall (fun q => ~ substring_of n q) paths).
Proof.
  intros Hs Hj. eexists _, _. split.
  { rewrite (find_env_run L _ w out f' paths Hs Hj), find_env_loop_str.
    reflexivity. }
  split; [|split].
  - split.
    + intros [p Hp]. apply find_str_in_Some in Hp
        as (before & after & -> & Hp & _).
      apply Exists_app. right. constructor. exact Hp.
    + intros Hex. destruct (List.find (str_in n) paths) eqn:E; [eauto |].
      apply find_str_in_None in E. apply Exists_exists in Hex
        as (q & Hin & Hq). rewrite Forall_forall in E.
      exfalso. exact (E q Hin Hq).
  - intros p. apply find_str_in_Some.
  - apply find_str_in_None.
Qed.

Lemma find_env_first_match_witness :
  exists r w',
    find_env Demo.lib (PStr "proj")
      (mkWorld (<[Demo.registry := File 420 ("/opt/conda/envs/other" +:+ nl +:+
                                            "/opt/conda/envs/myproj2" +:+ nl +:+
                                            "/opt/conda/envs/proj" +:+ nl)]>
                  (fs Demo.w_proj)) []) = (Ok r, w') /\
    (is_Some r <-> Exists (substring_of "proj")
       ["/opt/conda/envs/other"; "/opt/conda/envs/myproj2"; "/opt/conda/envs/proj"]) /\
    (forall p, r = Some p <->
       exists before after,
         ["/opt/conda/envs/other"; "/opt/conda/envs/myproj2"; "/opt/conda/envs/proj"]
           = before ++ p :: after /\ substring_of "proj" p /\
         Forall (fun q => ~ substring_of "proj" q) before) /\
    (r = None <-> Forall (fun q => ~ substring_of "proj" q)
       ["/opt/conda/envs/other"; "/opt/conda/envs/myproj2"; "/opt/conda/envs/proj"]).
Proof.
  apply (find_env_first_match Demo.lib "proj" _
           ("/opt/conda/envs/other" +:+ nl +:+ "/opt/conda/envs/myproj2" +:+ nl +:+
            "/opt/conda/envs/proj" +:+ nl)
           (<[Demo.registry := File 420 ("/opt/conda/envs/other" +:+ nl +:+
                                         "/opt/conda/envs/myproj2" +:+ nl +:+
                                         "/opt/conda/envs/proj" +:+ nl)]>
              (fs Demo.w_proj)));
    reflexivity.
Defined.

(** C10. With the empty string as name, [find_env] returns the first path
    of whatever list the query returned, and [None] only for the empty
    list. *)
Theorem find_env_empty_name (L : Lib) (w : World)
    (out : string) (f' : gmap Path node) (paths : list string) :
  spawn L "conda info --json" true (fs w) = (Ok out, f') ->
  json_envs L out = Ok paths ->
  exists r w',
    find_env L (PStr "") w = (Ok r, w') /\
    r = List.head paths /\
    (r = None <-> paths = []).
Proof.
  intros Hs Hj. eexists _, _. split.
  { rewrite (find_env_run L _ w out f' paths Hs Hj), find_env_loop_str.
    reflexivity. }
  destruct paths as [|p paths]; simpl.
  - repeat split; reflexivity.
  - rewrite str_in_empty. repeat split; discriminate.
Qed.

Lemma find_env_empty_name_witness :
  exists r w',
    find_env Demo.lib (PStr "")
      (mkWorld (<[Demo.registry := File 420 ("/opt/conda/envs/other" +:+ nl +:+
                                            "/opt/conda/envs/proj" +:+ nl)]>
                  (fs Demo.w_proj)) []) = (Ok r, w') /\
    r = List.head ["/opt/conda/envs/other"; "/opt/conda/envs/proj"] /\
    (r = None <-> ["/opt/conda/envs/other"; "/opt/conda/envs/proj"] = []).
Proof.
  apply (find_env_empty_name Demo.lib _
           ("/opt/conda/envs/other" +:+ nl +:+ "/opt/conda/envs/proj" +:+ nl)
           (<[Demo.registry := File 420 ("/opt/conda/envs/other" +:+ nl +:+
                                         "/opt/conda/envs/proj" +:+ nl)]>
              (fs Demo.w_proj)));
    reflexivity.
Defined.

(** ** The monad and the trace *)

Lemma bind_Ok_inv {A B} (m : M A) (k : A -> M B) (w w' : World) (b : B) :
  bind m k w = (Ok b, w') ->
  exists a w1, m w = (Ok a, w1) /\ k a w1 = (Ok b, w').
Proof.
  unfold bind. destruct (m w) as [[a|e] w1]; intros H; [eauto | discriminate].
Qed.

Lemma emits_weaken (P Q : event -> Prop) {A} (m : M A) :
  (forall ev, P ev -> Q ev) -> emits P m -> emits Q m.
Proof.
  intros HPQ Hm w. destruct (Hm w) as (evs & Ht & Hall).
  exists evs. split; [exact Ht |]. eapply Forall_impl; eauto.
Qed.

Lemma emits_ret (P : event -> Prop) {A} (a : A) : emits P (ret a).
Proof. intros w. exists []. simpl. rewrite app_nil_r. auto. Qed.

Lemma emits_lift (P : event -> Prop) {A} (r : Result A) : emits P (lift r).
Proof. intros w. exists []. simpl. rewrite app_nil_r. auto. Qed.

Lemma emits_emit (P : event -> Prop) (ev : event) : P ev -> emits P (emit ev).
Proof. intros H w. exists [ev]. simpl. auto. Qed.

Lemma emits_on_fs (P : event -> Prop) step : emits P (on_fs step).
Proof.
  intros w. exists []. unfold on_fs. rewrite app_nil_r.
  destruct (step (fs w)); simpl; auto.
Qed.

Lemma emits_bind (P : event -> Prop) {A B} (m : M A) (k : A -> M B) :
  emits P m -> (forall a, emits P (k a)) -> emits P (bind m k).
Proof.
  intros Hm Hk w. unfold bind. destruct (Hm w) as (evs1 & Ht1 & Hall1).
  destruct (m w) as [[a|e] w1]; simpl in *.
  - destruct (Hk a w1) as (evs2 & Ht2 & Hall2).
    exists (evs1 ++ evs2). rewrite Ht2, Ht1, <- app_assoc.
    split; [reflexivity | apply Forall_app; auto].
  - exists evs1. auto.
Qed.

Lemma emits_try_finally (P : event -> Prop) {A} (m : M A) (f : M unit) :
  emits P m -> emits P f -> emits P (try_finally m f).
Proof.
  intros Hm Hf w. unfold try_finally. destruct (Hm w) as (evs1 & Ht1 & Hall1).
  destruct (m w) as [r w1]; simpl in *.
  destruct (Hf w1) as (evs2 & Ht2 & Hall2).
  exists (evs1 ++ evs2). split; [| apply Forall_app; auto].
  destruct (f w1) as [[u|e] w2]; simpl in *; rewrite Ht2, Ht1, <- app_assoc;
    reflexivity.
Qed.

Create HintDb emits.
#[export] Hint Resolve emits_ret emits_lift emits_on_fs : emits.

Ltac emits_step :=
  first [ apply emits_bind; [| intros ?]
        | apply emits_try_finally
        | apply emits_emit
        | apply emits_ret | apply emits_lift | apply emits_on_fs ].

Section Calls.

Variable L : Lib.
Variable P : event -> Prop.

Lemma emits_touch p : P (EvTouch p) -> emits P (touch L p).
Proof. intros H. unfold touch. repeat emits_step. exact H. Qed.

Lemma emits_chmod p m : P (EvChmod p m) -> emits P (chmod L p m).
Proof. intros H. unfold chmod. repeat emits_step. exact H. Qed.

Lemma emits_mkdir_parents p : P (EvMkdir p) -> emits P (mkdir_parents L p).
Proof. intros H. unfold mkdir_parents. repeat emits_step. exact H. Qed.

Lemma emits_print msg : P (EvPrint msg) -> emits P (print msg).
Proof. intros H. unfold print. apply emits_emit, H. Qed.

Lemma emits_path_resolve p : emits P (path_resolve L p).
Proof. intros w. exists []. simpl. rewrite app_nil_r. auto. Qed.

Lemma emits_open_read p : P (EvOpen p "r") -> emits P (open_read p).
Proof.
  intros H. unfold open_read. apply emits_bind; [apply emits_emit, H |].
  intros _ w. exists []. rewrite app_nil_r.
  destruct (fs w !! p) as [[?|? ?]|]; simpl; auto.
Qed.

Lemma emits_subprocess_run cmd shell :
  P (EvRun cmd shell) -> emits P (subprocess_run L cmd shell).
Proof.
  intros H. unfold subprocess_run. apply emits_bind; [apply emits_emit, H |].
  intros _ w. exists []. rewrite app_nil_r.
  destruct (spawn L cmd shell (fs w)); simpl; auto.
Qed.

End Calls.

(** ** The guard's own calls *)

Lemma emits_writable_enter (L : Lib) (P : event -> Prop) base envc :
  P (EvTouch base) -> P (EvChmod base S_IWRITE) ->
  (forall e, envc = Some e ->
     P (EvMkdir (parent e)) /\ P (EvTouch e) /\ P (EvChmod e S_IWRITE)) ->
  emits P (writable_enter L base envc).
Proof.
  intros H1 H2 H3. unfold writable_enter.
  apply emits_bind; [apply emits_touch, H1 | intros _].
  apply emits_bind; [apply emits_chmod, H2 | intros _].
  destruct envc as [e|]; [| apply emits_ret].
  destruct (H3 e eq_refl) as (Ha & Hb & Hc).
  apply emits_bind; [apply emits_mkdir_parents, Ha | intros _].
  apply emits_bind; [apply emits_touch, Hb | intros _].
  apply emits_chmod, Hc.
Qed.

Lemma emits_writable_exit (L : Lib) (P : event -> Prop) enforce base envc :
  P (EvChmod base S_IREAD) ->
  (forall e, envc = Some e -> P (EvChmod e S_IREAD)) ->
  emits P (writable_exit L enforce base envc).
Proof.
  intros H1 H2. unfold writable_exit. destruct enforce; [| apply emits_ret].
  apply emits_bind; [apply emits_chmod, H1 | intros _].
  destruct envc as [e|]; [apply emits_chmod, (H2 e eq_refl) | apply emits_ret].
Qed.

(** Any property shared by the body's calls and by every touch, mkdir and
    chmod holds of the calls of the guarded body. *)
Lemma emits_writable (L : Lib) (P : event -> Prop) {A} env_name enforce
    conda_prefix (body : M A) :
  (forall p, P (EvTouch p)) -> (forall p, P (EvMkdir p)) ->
  (forall p m, P (EvChmod p m)) ->
  emits P body ->
  emits P (writable L env_name enforce conda_prefix body).
Proof.
  intros Ht Hm Hc Hb. unfold writable.
  apply emits_bind; [apply emits_lift | intros envc].
  apply emits_try_finally.
  - apply emits_bind; [| intros _; exact Hb].
    apply emits_writable_enter; auto.
  - apply emits_writable_exit; auto.
Qed.

(** C7. With the environment name ["base"] the guard binds no second
    canary: it is the [try]/[finally] around the body with the base canary
    alone, and every file-system call of its entry and of its exit (touch,
    mkdir, chmod) is made against the base canary file. *)
Theorem writable_base_touches_base_only (L : Lib) (enforce_readonly : bool)
    (conda_prefix : Path) (A : Type) (body : M A) :
  writable L (PStr "base") enforce_readonly conda_prefix body =
    try_finally
      (bind (writable_enter L (canary conda_prefix) None) (fun _ => body))
      (writable_exit L enforce_readonly (canary conda_prefix) None) /\
  emits (against (canary conda_prefix))
    (writable_enter L (canary conda_prefix) None) /\
  emits (against (canary conda_prefix))
    (writable_exit L enforce_readonly (canary conda_prefix) None).
Proof.
  split; [reflexivity |]. split.
  - apply emits_writable_enter; try reflexivity. discriminate.
  - apply emits_writable_exit; try reflexivity. discriminate.
Qed.

(** ** update_from_yml: the calls it makes *)

Lemma emits_find_env (L : Lib) (P : event -> Prop) env_name :
  P (EvRun "conda info --json" true) -> emits P (find_env L env_name).
Proof.
  intros H. unfold find_env.
  apply emits_bind; [apply emits_subprocess_run, H | intros out].
  apply emits_bind; [apply emits_lift | intros paths]. apply emits_lift.
Qed.

Lemma emits_update_or_create (L : Lib) (P : event -> Prop) env_name env_path :
  P (EvRun update_cmd false) -> P (EvRun create_cmd false) ->
  (forall msg, P (EvPrint msg)) ->
  emits P (update_or_create L env_name env_path).
Proof.
  intros Hu Hc Hp. unfold update_or_create. destruct env_path.
  - apply emits_bind; [apply emits_subprocess_run, Hu | intros _; apply emits_ret].
  - apply emits_bind; [apply emits_print, Hp | intros _].
    apply emits_bind; [apply emits_subprocess_run, Hc | intros _; apply emits_ret].
Qed.

Lemma sync_call_run_info yml : sync_call yml (EvRun "conda info --json" true).
Proof. simpl. auto. Qed.

Lemma sync_call_run_update yml : sync_call yml (EvRun update_cmd false).
Proof. simpl. auto. Qed.

Lemma sync_call_run_create yml : sync_call yml (EvRun create_cmd false).
Proof. simpl. auto. Qed.

(** What follows the first message: the lookup and the guarded command. *)
Lemma emits_sync_tail (L : Lib) yml env_name enforce conda_prefix :
  emits (sync_call yml)
    (bind (find_env L env_name) (fun env_path =>
       writable L env_name enforce conda_prefix
         (update_or_create L env_name env_path))).
Proof.
  apply emits_bind; [apply emits_find_env, sync_call_run_info | intros env_path].
  apply emits_writable; try (intros; exact I).
  apply emits_update_or_create; try (intros; exact I).
  - apply sync_call_run_update.
  - apply sync_call_run_create.
Qed.

(** Every call of [update_from_yml] is one of those [sync_call] allows. *)
Lemma emits_update_from_yml (L : Lib) yml enforce conda_prefix :
  emits (sync_call yml) (update_from_yml L yml enforce conda_prefix).
Proof.
  unfold update_from_yml.
  apply emits_bind; [apply emits_open_read; simpl; auto | intros text].
  apply emits_bind; [apply emits_lift | intros doc].
  apply emits_bind; [apply emits_lift | intros env_name].
  apply emits_bind; [apply emits_path_resolve | intros resolved].
  apply emits_bind; [apply emits_print; exact I | intros _].
  apply emits_sync_tail.
Qed.

(** What [update_from_yml] does up to and including its first message. *)
Lemma update_from_yml_head (L : Lib) yml enforce conda_prefix w m text doc env_name :
  fs w !! yml = Some (File m text) ->
  yaml_load L text = Ok doc ->
  getitem doc "name" = Ok env_name ->
  update_from_yml L yml enforce conda_prefix w =
    bind (find_env L env_name) (fun env_path =>
       writable L env_name enforce conda_prefix
         (update_or_create L env_name env_path))
      (mkWorld (fs w)
         (trace w ++ [EvOpen yml "r";
                      EvPrint (found_msg env_name (resolve L (fs w) yml))])).
Proof.
  intros Hf Hy Hn.
  unfold update_from_yml, open_read, path_resolve, print.
  unfold bind at 1. unfold bind at 1. unfold emit at 1. simpl.
  rewrite Hf. unfold bind at 1. unfold lift at 1. rewrite Hy.
  unfold bind at 1. unfold lift at 1. rewrite Hn.
  unfold bind at 1. unfold bind at 1. unfold emit. simpl.
  rewrite <- app_assoc. reflexivity.
Qed.

(** C8. When the manifest has a name field, the message
    [Found environment file for <name> at <resolved path of the manifest>]
    is printed, and the only call made before it is the opening of the
    manifest for reading: every mutating call (touch, mkdir, chmod,
    subprocess) comes after it. *)
Theorem update_from_yml_prints_first (L : Lib) (yml_file : Path)
    (enforce_readonly : bool) (conda_prefix : Path) (w : World)
    (m : Z) (text : string) (doc env_name : pyobj) :
  fs w !! yml_file = Some (File m text) ->
  yaml_load L text = Ok doc ->
  getitem doc "name" = Ok env_name ->
  exists before rest,
    trace (snd (update_from_yml L yml_file enforce_readonly conda_prefix w)) =
      trace w ++ before ++
      [EvPrint [FLit "Found environment file for "; FObj env_name;
                FLit " at "; FPath (resolve L (fs w) yml_file)]] ++ rest /\
    before = [EvOpen yml_file "r"] /\
    Forall (fun ev => mutating ev = false) before.
Proof.
  intros Hf Hy Hn.
  rewrite (update_from_yml_head L yml_file enforce_readonly conda_prefix
             w m text doc env_name Hf Hy Hn).
  destruct (emits_sync_tail L yml_file env_name enforce_readonly conda_prefix
              (mkWorld (fs w)
                 (trace w ++ [EvOpen yml_file "r";
                    EvPrint (found_msg env_name (resolve L (fs w) yml_file))])))
    as (rest & Ht & _).
  exists [EvOpen yml_file "r"], rest. split; [| split].
  - rewrite Ht. unfold found_msg. simpl. rewrite <- app_assoc. reflexivity.
  - reflexivity.
  - repeat constructor.
Qed.

Lemma update_from_yml_prints_first_witness :
  exists before rest,
    trace (snd (update_from_yml Demo.lib ["environment.yml"] true
                  Demo.conda_prefix Demo.w_proj)) =
      trace Demo.w_proj ++ before ++
      [EvPrint [FLit "Found environment file for "; FObj (PStr "proj");
                FLit " at ";
                FPath ["/"; "home"; "dev"; "work"; "environment.yml"]]] ++ rest /\
    before = [EvOpen ["environment.yml"] "r"] /\
    Forall (fun ev => mutating ev = false) before.
Proof.
  apply (update_from_yml_prints_first Demo.lib ["environment.yml"] true
           Demo.conda_prefix Demo.w_proj 420 Demo.proj_yml
           (PDict [("name", PStr "proj"); ("dependencies", PList [PStr "numpy"])])
           (PStr "proj"));
    reflexivity.
Defined.

(** ** The file-system steps *)

Lemma touch_run (L : Lib) p w :
  touch L p w =
    match touch_step L p (fs w) with
    | Ok f' => (Ok tt, mkWorld f' (trace w ++ [EvTouch p]))
    | Raise e => (Raise e, mkWorld (fs w) (trace w ++ [EvTouch p]))
    end.
Proof.
  unfold touch, bind, emit, on_fs. simpl.
  destruct (touch_step L p (fs w)); reflexivity.
Qed.

Lemma chmod_run (L : Lib) p m w :
  chmod L p m w =
    match chmod_step L p m (fs w) with
    | Ok f' => (Ok tt, mkWorld f' (trace w ++ [EvChmod p m]))
    | Raise e => (Raise e, mkWorld (fs w) (trace w ++ [EvChmod p m]))
    end.
Proof.
  unfold chmod, bind, emit, on_fs. simpl.
  destruct (chmod_step L p m (fs w)); reflexivity.
Qed.

Lemma mkdir_parents_run (L : Lib) p w :
  mkdir_parents L p w =
    match mkdir_go L (length p) p (fs w) with
    | Ok f' => (Ok None, mkWorld f' (trace w ++ [EvMkdir p]))
    | Raise e => (Raise e, mkWorld (fs w) (trace w ++ [EvMkdir p]))
    end.
Proof.
  unfold mkdir_parents, bind, emit, on_fs, ret. simpl.
  destruct (mkdir_go L (length p) p (fs w)); reflexivity.
Qed.

Lemma keeps_refl f : keeps f f.
Proof. intros q n H. exact H. Qed.

Lemma keeps_trans f g h : keeps f g -> keeps g h -> keeps f h.
Proof. intros H1 H2 q n H. apply H2, H1, H. Qed.

Lemma create_at_keeps p n f f' :
  f !! p = None -> create_at p n f = Ok f' -> keeps f f'.
Proof.
  unfold create_at. intros Hp H.
  destruct (f !! parent p) as [[?|? ?]|]; try discriminate.
  injection H as <-. intros q k Hq.
  rewrite lookup_insert_ne; [exact Hq |]. intros ->. congruence.
Qed.

(** What a creation adds is the node asked for, at the path asked for. *)
Lemma create_at_adds p n f f' q :
  create_at p n f = Ok f' -> f' !! q = if decide (p = q) then Some n else f !! q.
Proof.
  unfold create_at. intros H.
  destruct (f !! parent p) as [[?|? ?]|]; try discriminate.
  injection H as <-. apply lookup_insert.
Qed.

Lemma touch_step_keeps (L : Lib) p f f' : touch_step L p f = Ok f' -> keeps f f'.
Proof.
  unfold touch_step. destruct (refuses L (OsTouch p) f); [discriminate |].
  destruct (f !! p) eqn:E.
  - intros [= <-]. apply keeps_refl.
  - apply create_at_keeps, E.
Qed.

Lemma touch_step_exists (L : Lib) p f f' :
  touch_step L p f = Ok f' -> is_Some (f' !! p).
Proof.
  unfold touch_step. destruct (refuses L (OsTouch p) f); [discriminate |].
  destruct (f !! p) eqn:E.
  - intros [= <-]. rewrite E. eauto.
  - intros H. rewrite (create_at_adds _ _ _ _ p H).
    destruct (decide (p = p)); [eauto | contradiction].
Qed.

Lemma os_mkdir_keeps (L : Lib) p f f' : os_mkdir L p f = Ok f' -> keeps f f'.
Proof.
  unfold os_mkdir. destruct (refuses L (OsMkdir p) f); [discriminate |].
  destruct (f !! p) eqn:E; [discriminate |].
  apply create_at_keeps, E.
Qed.

Lemma mkdir_go_keeps (L : Lib) depth p f f' :
  mkdir_go L depth p f = Ok f' -> keeps f f'.
Proof.
  revert p f f'. induction depth as [|d IH]; intros p f f'; simpl.
  - destruct (os_mkdir L p f) as [g|e] eqn:E.
    + intros [= <-]. eapply os_mkdir_keeps, E.
    + destruct e; try discriminate;
        (destruct (is_dir f p); [intros [= <-]; apply keeps_refl | discriminate]).
  - destruct (os_mkdir L p f) as [g|e] eqn:E.
    + intros [= <-]. eapply os_mkdir_keeps, E.
    + destruct e;
        try (destruct (is_dir f p); [intros [= <-]; apply keeps_refl | discriminate]).
      destruct (path_eqb (parent p) p); [discriminate |].
      destruct (mkdir_go L d (parent p) f) as [f1|e1] eqn:E1; [| discriminate].
      apply IH in E1.
      destruct (os_mkdir L p f1) as [f2|e2] eqn:E2.
      * intros [= <-]. eapply keeps_trans; [exact E1 |]. eapply os_mkdir_keeps, E2.
      * destruct e2; try discriminate;
          (destruct (is_dir f1 p); [intros [= <-]; exact E1 | discriminate]).
Qed.

(** A chmod that succeeds found an entry and gave it the mode. *)
Lemma chmod_step_inv (L : Lib) p m f f' :
  chmod_step L p m f = Ok f' ->
  exists n, f !! p = Some n /\ f' = <[p := set_mode m n]> f.
Proof.
  unfold chmod_step. destruct (refuses L (OsChmod p m) f); [discriminate |].
  destruct (f !! p) as [n|]; [| discriminate].
  intros [= <-]. eauto.
Qed.

Lemma chmod_step_lookup (L : Lib) p m f f' q :
  chmod_step L p m f = Ok f' ->
  f' !! q = if decide (p = q) then set_mode m <$> f !! p else f !! q.
Proof.
  intros H. apply chmod_step_inv in H as (n & E & ->).
  rewrite lookup_insert, E. destruct (decide (p = q)); reflexivity.
Qed.

Lemma node_mode_set_mode m n : node_mode (set_mode m n) = m.
Proof. destruct n; reflexivity. Qed.

Lemma chmod_step_mode (L : Lib) p m f f' q :
  chmod_step L p m f = Ok f' ->
  mode_of f' q = if decide (p = q) then Some m else mode_of f q.
Proof.
  intros H. unfold mode_of. rewrite (chmod_step_lookup L p m f f' q H).
  destruct (decide (p = q)); [| reflexivity].
  apply chmod_step_inv in H as (n & E & _). rewrite E.
  simpl. rewrite node_mode_set_mode. reflexivity.
Qed.

(** A chmod the operating system does not turn down succeeds on every
    entry that is there. *)
Lemma chmod_step_Some (L : Lib) p m f :
  refuses L (OsChmod p m) f = None ->
  is_Some (f !! p) -> exists f', chmod_step L p m f = Ok f'.
Proof. intros Hr [n H]. unfold chmod_step. rewrite Hr, H. eauto. Qed.

Lemma chmod_step_exists (L : Lib) p m f f' q :
  chmod_step L p m f = Ok f' -> is_Some (f !! q) -> is_Some (f' !! q).
Proof.
  intros H [n Hq]. rewrite (chmod_step_lookup L p m f f' q H).
  destruct (decide (p = q)) as [->|]; rewrite Hq; simpl; eauto.
Qed.

(** ** The guard: entry and exit on the file system *)

Lemma env_canary_of_str (n : string) (conda_prefix : Path) :
  env_canary_of (PStr n) conda_prefix = Ok (env_canary n conda_prefix).
Proof.
  unfold env_canary_of, env_canary. simpl.
  destruct (String.eqb n "base"); reflexivity.
Qed.

Lemma writable_unfold (L : Lib) {A} (n : string) enforce conda_prefix
    (body : M A) (w : World) :
  writable L (PStr n) enforce conda_prefix body w =
    try_finally
      (bind (writable_enter L (canary conda_prefix) (env_canary n conda_prefix))
            (fun _ => body))
      (writable_exit L enforce (canary conda_prefix) (env_canary n conda_prefix)) w.
Proof.
  unfold writable. unfold bind at 1. unfold lift.
  rewrite env_canary_of_str. reflexivity.
Qed.

Lemma mode_of_keeps f f' q m :
  keeps f f' -> mode_of f q = Some m -> mode_of f' q = Some m.
Proof.
  unfold mode_of. intros Hk H. destruct (f !! q) as [n|] eqn:E; [| discriminate].
  rewrite (Hk q n E). exact H.
Qed.

(** After a successful entry every canary is there with mode [S_IWRITE]. *)
Lemma writable_enter_modes (L : Lib) base envc w w1 :
  writable_enter L base envc w = (Ok tt, w1) ->
  mode_of (fs w1) base = Some S_IWRITE /\
  (forall e, envc = Some e -> mode_of (fs w1) e = Some S_IWRITE).
Proof.
  unfold writable_enter. intros H.
  apply bind_Ok_inv in H as (u1 & wa & Ha & H).
  apply bind_Ok_inv in H as (u2 & wb & Hb & H).
  rewrite touch_run in Ha. rewrite chmod_run in Hb.
  destruct (touch_step L base (fs w)) as [fa|] eqn:Ea; [| discriminate].
  injection Ha as _ <-. simpl in Hb.
  destruct (chmod_step L base S_IWRITE fa) as [fb|] eqn:Eb; [| discriminate].
  injection Hb as _ <-.
  assert (Hbase : mode_of fb base = Some S_IWRITE).
  { rewrite (chmod_step_mode L _ _ _ _ base Eb).
    destruct (decide (base = base)); [reflexivity | contradiction]. }
  destruct envc as [e|].
  - apply bind_Ok_inv in H as (u3 & wc & Hc & H).
    apply bind_Ok_inv in H as (u4 & wd & Hd & H).
    rewrite mkdir_parents_run in Hc. simpl in Hc.
    destruct (mkdir_go L (length (parent e)) (parent e) fb) as [fc|] eqn:Ec;
      [| discriminate].
    injection Hc as _ <-. rewrite touch_run in Hd. simpl in Hd.
    destruct (touch_step L e fc) as [fd|] eqn:Ed; [| discriminate].
    injection Hd as _ <-. rewrite chmod_run in H. simpl in H.
    destruct (chmod_step L e S_IWRITE fd) as [fe|] eqn:Ee; [| discriminate].
    injection H as <-. simpl.
    assert (He : forall q, mode_of fe q =
                   if decide (e = q) then Some S_IWRITE else mode_of fd q)
      by (intros q; apply (chmod_step_mode L), Ee).
    split.
    + rewrite He. destruct (decide (e = base)); [reflexivity |].
      eapply mode_of_keeps; [eapply touch_step_keeps, Ed |].
      eapply mode_of_keeps; [eapply mkdir_go_keeps, Ec | exact Hbase].
    + intros e' [= <-]. rewrite He.
      destruct (decide (e = e)); [reflexivity | contradiction].
  - injection H as <-. simpl. split; [exact Hbase | discriminate].
Qed.

(** When the exit with [enforce_readonly] completes, it leaves every canary
    with mode [S_IREAD]. *)
Lemma writable_exit_modes (L : Lib) base envc w2 w3 :
  writable_exit L true base envc w2 = (Ok tt, w3) ->
  mode_of (fs w3) base = Some S_IREAD /\
  (forall e, envc = Some e -> mode_of (fs w3) e = Some S_IREAD).
Proof.
  unfold writable_exit. intros H.
  apply bind_Ok_inv in H as (u & wa & Ha & H).
  rewrite chmod_run in Ha.
  destruct (chmod_step L base S_IREAD (fs w2)) as [f3|] eqn:E3; [| discriminate].
  injection Ha as _ <-.
  assert (Hbase : mode_of f3 base = Some S_IREAD).
  { rewrite (chmod_step_mode L _ _ _ _ base E3).
    destruct (decide (base = base)); [reflexivity | contradiction]. }
  destruct envc as [e|].
  - rewrite chmod_run in H. simpl in H.
    destruct (chmod_step L e S_IREAD f3) as [f4|] eqn:E4; [| discriminate].
    injection H as <-. simpl. split.
    + rewrite (chmod_step_mode L _ _ _ _ base E4).
      destruct (decide (e = base)); [reflexivity | exact Hbase].
    + intros e' [= <-]. rewrite (chmod_step_mode L _ _ _ _ e E4).
      destruct (decide (e = e)); [reflexivity | contradiction].
  - injection H as <-. simpl. split; [exact Hbase | discriminate].
Qed.

(** The exit completes as soon as the canaries are there and the operating
    system lets their permission bits be changed. *)
Lemma writable_exit_completes (L : Lib) base envc w2 :
  is_Some (fs w2 !! base) ->
  (forall e, envc = Some e -> is_Some (fs w2 !! e)) ->
  (forall f, refuses L (OsChmod base S_IREAD) f = None) ->
  (forall e f, envc = Some e -> refuses L (OsChmod e S_IREAD) f = None) ->
  exists w3, writable_exit L true base envc w2 = (Ok tt, w3).
Proof.
  intros Hb He Rb Re. unfold writable_exit. unfold bind. rewrite chmod_run.
  destruct (chmod_step_Some L base S_IREAD (fs w2) (Rb _) Hb) as [f3 E3].
  rewrite E3.
  destruct envc as [e|].
  - rewrite chmod_run. simpl.
    assert (Hex : is_Some (f3 !! e))
      by (eapply chmod_step_exists; [exact E3 | apply He; reflexivity]).
    destruct (chmod_step_Some L e S_IREAD f3 (Re e _ eq_refl) Hex) as [f4 E4].
    rewrite E4. eexists. reflexivity.
  - eexists. reflexivity.
Qed.

(** The guarded block, once its three parts have been run: the exit's error,
    if any, replaces the outcome of the body. *)
Lemma writable_run (L : Lib) {A} (n : string) enforce conda_prefix
    (body : M A) w w1 (r : Result A) w2 (r3 : Result unit) w3 :
  writable_enter L (canary conda_prefix) (env_canary n conda_prefix) w
    = (Ok tt, w1) ->
  body w1 = (r, w2) ->
  writable_exit L enforce (canary conda_prefix) (env_canary n conda_prefix) w2
    = (r3, w3) ->
  writable L (PStr n) enforce conda_prefix body w =
    (match r3 with Ok _ => r | Raise e => Raise e end, w3).
Proof.
  intros He Hb Hx. rewrite writable_unfold. unfold try_finally.
  unfold bind at 1. rewrite He, Hb, Hx. destruct r3; reflexivity.
Qed.

Lemma in_canaries n conda_prefix c :
  In c (canaries n conda_prefix) <->
  c = canary conda_prefix \/ env_canary n conda_prefix = Some c.
Proof.
  unfold canaries. simpl. destruct (env_canary n conda_prefix) as [e|]; simpl.
  - split; [intros [<-|[<-|[]]]; auto | intros [->|[= ->]]; auto].
  - split; [intros [<-|[]]; auto | intros [->|H]; [auto | discriminate]].
Qed.

(** C1, as the code has it. Once the body has been run inside the guard, and
    whether it returned or raised.  With [enforce_readonly] false the exit
    does nothing: the guarded block ends as the body did, in the world the
    body left, so each canary whose permission bits the body did not change
    has the mode [S_IWRITE] the entry gave it.  With [enforce_readonly] true
    the exit is the chmods to [S_IREAD]: when they complete, the guarded
    block ends as the body did (a failure of the body is raised again after
    the restoration) and every canary has mode [S_IREAD]; when one of them
    raises, that error is what the guarded block raises; and they complete
    as soon as the body left the canary files in place and the operating
    system does not turn the chmods down. *)
Theorem writable_restores (L : Lib) (n : string) (enforce_readonly : bool)
    (conda_prefix : Path) (body : M unit) (w w1 w2 : World) (r : Result unit) :
  writable_enter L (canary conda_prefix) (env_canary n conda_prefix) w
    = (Ok tt, w1) ->
  body w1 = (r, w2) ->
  (enforce_readonly = false ->
     writable L (PStr n) enforce_readonly conda_prefix body w = (r, w2) /\
     forall c, In c (canaries n conda_prefix) ->
       mode_of (fs w2) c = mode_of (fs w1) c ->
       mode_of (fs w2) c = Some S_IWRITE) /\
  (enforce_readonly = true ->
     (forall w3,
        writable_exit L true (canary conda_prefix) (env_canary n conda_prefix) w2
          = (Ok tt, w3) ->
        writable L (PStr n) enforce_readonly conda_prefix body w = (r, w3) /\
        forall c, In c (canaries n conda_prefix) ->
          mode_of (fs w3) c = Some S_IREAD) /\
     (forall e w3,
        writable_exit L true (canary conda_prefix) (env_canary n conda_prefix) w2
          = (Raise e, w3) ->
        writable L (PStr n) enforce_readonly conda_prefix body w = (Raise e, w3)) /\
     ((forall c, In c (canaries n conda_prefix) ->
         is_Some (fs w2 !! c) /\
         forall f, refuses L (OsChmod c S_IREAD) f = None) ->
      exists w3,
        writable_exit L true (canary conda_prefix) (env_canary n conda_prefix) w2
          = (Ok tt, w3))).
Proof.
  intros Henter Hbody. split.
  - intros ->. split.
    + apply (writable_run L n false conda_prefix body w w1 r w2 (Ok tt) w2
               Henter Hbody eq_refl).
    + intros c Hc ->.
      destruct (writable_enter_modes L _ _ w w1 Henter) as (Hb & He).
      apply in_canaries in Hc as [->|Hc]; [exact Hb | exact (He c Hc)].
  - intros ->. split; [| split].
    + intros w3 Hexit. split.
      * apply (writable_run L n true conda_prefix body w w1 r w2 (Ok tt) w3
                 Henter Hbody Hexit).
      * destruct (writable_exit_modes L _ _ w2 w3 Hexit) as (Hb & He).
        intros c Hc.
        apply in_canaries in Hc as [->|Hc]; [exact Hb | exact (He c Hc)].
    + intros e w3 Hexit.
      apply (writable_run L n true conda_prefix body w w1 r w2 (Raise e) w3
               Henter Hbody Hexit).
    + intros Hkeep. apply writable_exit_completes.
      * apply Hkeep, in_canaries. auto.
      * intros e E. apply Hkeep, in_canaries. auto.
      * apply Hkeep, in_canaries. auto.
      * intros e f E. apply Hkeep, in_canaries. auto.
Qed.

Lemma writable_restores_witness :
  exists w3,
    writable Demo.lib (PStr "proj") true Demo.conda_prefix failing_body Demo.w_proj
      = (Raise (ExternalError "CalledProcessError"), w3) /\
    forall c, In c (canaries "proj" Demo.conda_prefix) ->
      mode_of (fs w3) c = Some S_IREAD.
Proof.
  destruct (writable_restores Demo.lib "proj" true Demo.conda_prefix failing_body
              Demo.w_proj
              (entered Demo.lib "proj" Demo.conda_prefix Demo.w_proj)
              (entered Demo.lib "proj" Demo.conda_prefix Demo.w_proj)
              (Raise (ExternalError "CalledProcessError")) eq_refl eq_refl)
    as [_ Htrue].
  destruct (Htrue eq_refl) as (Hok & _ & Hdone).
  destruct Hdone as [w3 Hexit].
  { intros c Hc. split; [| reflexivity]. apply in_canaries in Hc as [->|Hc].
    - vm_compute. eexists. reflexivity.
    - vm_compute in Hc. injection Hc as <-. vm_compute. eexists. reflexivity. }
  exists w3. apply Hok, Hexit.
Defined.

(** Read for every body, the promise fails both ways: a body that removes
    the base canary leaves nothing to make read-only (the exit's chmod
    raises), and with [enforce_readonly] false a body that makes the canary
    read-only itself leaves it read-only, not writable. *)
Lemma restores_after_every_body_fails :
  ~ restores_after_every_body true /\ ~ restores_after_every_body false.
Proof.
  split; intros H.
  - pose (body := os_remove (canary Demo.conda_prefix)).
    pose (w1 := snd (writable_enter Demo.lib (canary Demo.conda_prefix)
                       (env_canary "base" Demo.conda_prefix) Demo.w_proj)).
    pose (w2 := snd (body w1)).
    assert (E1 : writable_enter Demo.lib (canary Demo.conda_prefix)
                   (env_canary "base" Demo.conda_prefix) Demo.w_proj = (Ok tt, w1))
      by reflexivity.
    assert (E2 : body w1 = (Ok tt, w2)) by reflexivity.
    specialize (H Demo.lib "base" Demo.conda_prefix body Demo.w_proj w1 w2
                  (Ok tt) E1 E2 (canary Demo.conda_prefix) (or_introl eq_refl)).
    vm_compute in H. discriminate H.
  - pose (body := chmod Demo.lib (canary Demo.conda_prefix) S_IREAD).
    pose (w1 := snd (writable_enter Demo.lib (canary Demo.conda_prefix)
                       (env_canary "base" Demo.conda_prefix) Demo.w_proj)).
    pose (w2 := snd (body w1)).
    assert (E1 : writable_enter Demo.lib (canary Demo.conda_prefix)
                   (env_canary "base" Demo.conda_prefix) Demo.w_proj = (Ok tt, w1))
      by reflexivity.
    assert (E2 : body w1 = (Ok tt, w2)) by reflexivity.
    specialize (H Demo.lib "base" Demo.conda_prefix body Demo.w_proj w1 w2
                  (Ok tt) E1 E2 (canary Demo.conda_prefix) (or_introl eq_refl)).
    vm_compute in H. discriminate H.
Qed.

(** ** update_from_yml: which command is run *)

Lemma find_env_trace (L : Lib) env_name w :
  trace (snd (find_env L env_name w)) = trace w ++ [EvRun "conda info --json" true].
Proof.
  unfold find_env, subprocess_run, bind, emit, lift. simpl.
  destruct (spawn L "conda info --json" true (fs w)) as [[out|e] f']; simpl;
    [| reflexivity].
  destruct (json_envs L out) as [paths|e]; simpl; [| reflexivity].
  destruct (find_env_loop env_name paths); reflexivity.
Qed.

Lemma writable_enter_trace (L : Lib) base envc w w1 :
  writable_enter L base envc w = (Ok tt, w1) ->
  trace w1 = trace w ++ enter_events base envc.
Proof.
  unfold writable_enter, enter_events. intros H.
  apply bind_Ok_inv in H as (u1 & wa & Ha & H).
  apply bind_Ok_inv in H as (u2 & wb & Hb & H).
  rewrite touch_run in Ha. rewrite chmod_run in Hb.
  destruct (touch_step L base (fs w)) as [fa|]; [| discriminate].
  injection Ha as _ <-. simpl in Hb.
  destruct (chmod_step L base S_IWRITE fa) as [fb|]; [| discriminate].
  injection Hb as _ <-.
  destruct envc as [e|].
  - apply bind_Ok_inv in H as (u3 & wc & Hc & H).
    apply bind_Ok_inv in H as (u4 & wd & Hd & H).
    rewrite mkdir_parents_run in Hc. simpl in Hc.
    destruct (mkdir_go L (length (parent e)) (parent e) fb) as [fc|]; [| discriminate].
    injection Hc as _ <-. rewrite touch_run in Hd. simpl in Hd.
    destruct (touch_step L e fc) as [fd|]; [| discriminate].
    injection Hd as _ <-. rewrite chmod_run in H. simpl in H.
    destruct (chmod_step L e S_IWRITE fd) as [fe|]; [| discriminate].
    injection H as <-. simpl. rewrite <- !app_assoc. reflexivity.
  - injection H as <-. simpl. rewrite <- !app_assoc. reflexivity.
Qed.

Lemma update_or_create_trace (L : Lib) env_name env_path w :
  trace (snd (update_or_create L env_name env_path w)) =
    trace w ++ body_events env_name env_path.
Proof.
  unfold update_or_create, body_events, print, subprocess_run, bind, emit, ret.
  destruct env_path as [p|]; simpl.
  - destruct (spawn L update_cmd false (fs w)) as [[out|e] f']; reflexivity.
  - destruct (spawn L create_cmd false (fs w)) as [[out|e] f']; simpl;
      rewrite <- app_assoc; reflexivity.
Qed.

Lemma emits_exit_calls (L : Lib) enforce base envc :
  emits exit_call (writable_exit L enforce base envc).
Proof.
  apply emits_writable_exit; [eexists; reflexivity |].
  intros e _. eexists. reflexivity.
Qed.

Lemma count_runs_app cmd l1 l2 :
  count_runs cmd (l1 ++ l2) = (count_runs cmd l1 + count_runs cmd l2)%nat.
Proof. unfold count_runs. rewrite List.filter_app, length_app. reflexivity. Qed.

Lemma count_runs_exit cmd evs : Forall exit_call evs -> count_runs cmd evs = 0%nat.
Proof.
  unfold count_runs. induction 1 as [|ev evs [p ->] _ IH]; [reflexivity |].
  simpl. exact IH.
Qed.

Lemma count_runs_enter cmd base envc : count_runs cmd (enter_events base envc) = 0%nat.
Proof. destruct envc; reflexivity. Qed.

(** The whole trace of a run of [update_from_yml] that gets into the
    guard. *)
Lemma update_from_yml_trace (L : Lib) yml enforce conda_prefix w m text doc
    (n : string) env_path wa w1 :
  fs w !! yml = Some (File m text) ->
  yaml_load L text = Ok doc ->
  getitem doc "name" = Ok (PStr n) ->
  find_env L (PStr n)
    (mkWorld (fs w)
       (trace w ++ [EvOpen yml "r";
                    EvPrint (found_msg (PStr n) (resolve L (fs w) yml))]))
    = (Ok env_path, wa) ->
  writable_enter L (canary conda_prefix) (env_canary n conda_prefix) wa
    = (Ok tt, w1) ->
  exists exit_evs,
    trace (snd (update_from_yml L yml enforce conda_prefix w)) =
      trace w ++ head_events yml (PStr n) (resolve L (fs w) yml) ++
      enter_events (canary conda_prefix) (env_canary n conda_prefix) ++
      body_events (PStr n) env_path ++ exit_evs /\
    Forall exit_call exit_evs.
Proof.
  intros Hf Hy Hn Hfind Henter.
  rewrite (update_from_yml_head L yml enforce conda_prefix w m text doc
             (PStr n) Hf Hy Hn).
  unfold bind at 1. rewrite Hfind. rewrite writable_unfold.
  unfold try_finally. unfold bind at 1. rewrite Henter.
  pose proof (update_or_create_trace L (PStr n) env_path w1) as Hbody.
  destruct (update_or_create L (PStr n) env_path w1) as [r w2]. simpl in Hbody.
  destruct (emits_exit_calls L enforce (canary conda_prefix)
              (env_canary n conda_prefix) w2) as (exit_evs & Hexit & Hall).
  exists exit_evs. split; [| exact Hall].
  assert (Ha : trace wa = trace w ++ head_events yml (PStr n) (resolve L (fs w) yml)).
  { pose proof (find_env_trace L (PStr n)
        (mkWorld (fs w)
           (trace w ++ [EvOpen yml "r";
                        EvPrint (found_msg (PStr n) (resolve L (fs w) yml))]))) as Ht.
    rewrite Hfind in Ht. simpl in Ht. rewrite Ht, <- app_assoc. reflexivity. }
  assert (Hfinal : trace (snd (writable_exit L enforce (canary conda_prefix)
                                 (env_canary n conda_prefix) w2)) =
                   trace w ++ head_events yml (PStr n) (resolve L (fs w) yml) ++
                   enter_events (canary conda_prefix) (env_canary n conda_prefix) ++
                   body_events (PStr n) env_path ++ exit_evs).
  { rewrite Hexit, Hbody, (writable_enter_trace L _ _ wa w1 Henter), Ha.
    rewrite <- !app_assoc. reflexivity. }
  destruct (writable_exit L enforce (canary conda_prefix)
              (env_canary n conda_prefix) w2) as [[u|e] w3]; exact Hfinal.
Qed.

(** X3. When the manifest names an environment, [find_env] has answered and
    the guard has been entered: if [find_env] returned a path, the calls
    made are those of the entry, then the update command (with [--prune]),
    then the exit's chmods, so the update command is run exactly once and
    the create command never; if it returned [None], the create command
    takes that place, run exactly once, and the update command never. *)
Theorem update_from_yml_branch (L : Lib) (yml_file : Path)
    (enforce_readonly : bool) (conda_prefix : Path) (w : World) (m : Z)
    (text : string) (doc : pyobj) (n : string) (env_path : option string)
    (wa w1 : World) :
  fs w !! yml_file = Some (File m text) ->
  yaml_load L text = Ok doc ->
  getitem doc "name" = Ok (PStr n) ->
  find_env L (PStr n)
    (mkWorld (fs w)
       (trace w ++ [EvOpen yml_file "r";
                    EvPrint (found_msg (PStr n) (resolve L (fs w) yml_file))]))
    = (Ok env_path, wa) ->
  writable_enter L (canary conda_prefix) (env_canary n conda_prefix) wa
    = (Ok tt, w1) ->
  exists cmd evs exit_evs,
    trace (snd (update_from_yml L yml_file enforce_readonly conda_prefix w)) =
      trace w ++ evs /\
    evs = head_events yml_file (PStr n) (resolve L (fs w) yml_file) ++
          enter_events (canary conda_prefix) (env_canary n conda_prefix) ++
          body_events (PStr n) env_path ++ exit_evs /\
    Forall exit_call exit_evs /\
    In (EvRun cmd false) (body_events (PStr n) env_path) /\
    cmd = match env_path with
          | Some _ => "conda env update --file environment.yml --prune"
          | None => "conda env create --file environment.yml"
          end /\
    count_runs update_cmd evs = match env_path with Some _ => 1 | None => 0 end%nat /\
    count_runs create_cmd evs = match env_path with Some _ => 0 | None => 1 end%nat.
Proof.
  intros Hf Hy Hn Hfind Henter.
  destruct (update_from_yml_trace L yml_file enforce_readonly conda_prefix w m
              text doc n env_path wa w1 Hf Hy Hn Hfind Henter)
    as (exit_evs & Ht & Hall).
  eexists _, _, exit_evs. split; [exact Ht |]. split; [reflexivity |].
  split; [exact Hall |]. split; [| split; [reflexivity |]].
  - destruct env_path; simpl; auto.
  - rewrite !count_runs_app, !count_runs_enter, !(count_runs_exit _ _ Hall).
    destruct env_path; split; reflexivity.
Qed.

Lemma update_from_yml_branch_witness :
  exists cmd evs exit_evs,
    trace (snd (update_from_yml Demo.lib ["environment.yml"] true
                  Demo.conda_prefix Demo.w_proj)) = trace Demo.w_proj ++ evs /\
    evs = head_events ["environment.yml"] (PStr "proj")
            (resolve Demo.lib (fs Demo.w_proj) ["environment.yml"]) ++
          enter_events (canary Demo.conda_prefix)
            (env_canary "proj" Demo.conda_prefix) ++
          body_events (PStr "proj") None ++ exit_evs /\
    Forall exit_call exit_evs /\
    In (EvRun cmd false) (body_events (PStr "proj") None) /\
    cmd = "conda env create --file environment.yml" /\
    count_runs update_cmd evs = 0%nat /\
    count_runs create_cmd evs = 1%nat.
Proof.
  apply (update_from_yml_branch Demo.lib ["environment.yml"] true
           Demo.conda_prefix Demo.w_proj 420 Demo.proj_yml
           (PDict [("name", PStr "proj"); ("dependencies", PList [PStr "numpy"])])
           "proj" None
           (listed Demo.lib ["environment.yml"] (PStr "proj") Demo.w_proj)
           (entered Demo.lib "proj" Demo.conda_prefix
              (listed Demo.lib ["environment.yml"] (PStr "proj") Demo.w_proj)));
    reflexivity.
Defined.

(** ** update_from_yml: the file it reads and the file it names *)

Lemma opens_app l1 l2 : opens (l1 ++ l2) = opens l1 ++ opens l2.
Proof.
  induction l1 as [|ev l1 IH]; [reflexivity |].
  destruct ev; simpl; rewrite ?IH; reflexivity.
Qed.

Lemma commands_app l1 l2 : commands (l1 ++ l2) = commands l1 ++ commands l2.
Proof.
  induction l1 as [|ev l1 IH]; [reflexivity |].
  destruct ev; simpl; rewrite ?IH; reflexivity.
Qed.

Lemma opens_exit evs : Forall exit_call evs -> opens evs = [].
Proof. induction 1 as [|ev evs [p ->] _ IH]; [reflexivity | exact IH]. Qed.

Lemma commands_exit evs : Forall exit_call evs -> commands evs = [].
Proof. induction 1 as [|ev evs [p ->] _ IH]; [reflexivity | exact IH]. Qed.

Lemma opens_enter base envc : opens (enter_events base envc) = [].
Proof. destruct envc; reflexivity. Qed.

Lemma commands_enter base envc : commands (enter_events base envc) = [].
Proof. destruct envc; reflexivity. Qed.

(** The files opened and the commands run by a run of [update_from_yml]
    that gets into the guard. *)
Lemma update_from_yml_calls (L : Lib) yml enforce conda_prefix w m text doc
    (n : string) env_path wa w1 :
  fs w !! yml = Some (File m text) ->
  yaml_load L text = Ok doc ->
  getitem doc "name" = Ok (PStr n) ->
  find_env L (PStr n)
    (mkWorld (fs w)
       (trace w ++ [EvOpen yml "r";
                    EvPrint (found_msg (PStr n) (resolve L (fs w) yml))]))
    = (Ok env_path, wa) ->
  writable_enter L (canary conda_prefix) (env_canary n conda_prefix) wa
    = (Ok tt, w1) ->
  exists evs,
    trace (snd (update_from_yml L yml enforce conda_prefix w)) = trace w ++ evs /\
    opens evs = [(yml, "r")] /\
    commands evs =
      [("conda info --json", true);
       (match env_path with Some _ => update_cmd | None => create_cmd end, false)] /\
    In (EvChmod (canary conda_prefix) S_IWRITE) evs.
Proof.
  intros Hf Hy Hn Hfind Henter.
  destruct (update_from_yml_trace L yml enforce conda_prefix w m text doc n
              env_path wa w1 Hf Hy Hn Hfind Henter) as (exit_evs & Ht & Hall).
  eexists. split; [exact Ht |]. split; [| split].
  - rewrite !opens_app, opens_enter, (opens_exit _ Hall).
    destruct env_path; reflexivity.
  - rewrite !commands_app, commands_enter, (commands_exit _ Hall).
    destruct env_path; reflexivity.
  - apply in_or_app. right. apply in_or_app. left.
    unfold enter_events. simpl. auto.
Qed.

(** C9. Whatever [yml_file] is passed: every call of [update_from_yml] that
    opens a file opens [yml_file], for reading, and every command line it
    hands over is one of the three literal ones; a run that gets into the
    guard opens [yml_file] and nothing else, and hands over the query and
    then, without a shell, the update or the create command, which names
    the file [environment.yml] and not [yml_file]; and there is a run in
    which the manifest read for the name and the file named on the command
    line are two files with different contents. *)
Theorem update_from_yml_literal_file :
  (forall (L : Lib) (yml_file : Path) (enforce_readonly : bool)
          (conda_prefix : Path),
     emits (sync_call yml_file)
       (update_from_yml L yml_file enforce_readonly conda_prefix)) /\
  (forall (L : Lib) (yml_file : Path) (enforce_readonly : bool)
          (conda_prefix : Path) (w : World) (m : Z) (text : string)
          (doc : pyobj) (n : string) (env_path : option string)
          (wa w1 : World),
     fs w !! yml_file = Some (File m text) ->
     yaml_load L text = Ok doc ->
     getitem doc "name" = Ok (PStr n) ->
     find_env L (PStr n)
       (mkWorld (fs w)
          (trace w ++ [EvOpen yml_file "r";
                       EvPrint (found_msg (PStr n) (resolve L (fs w) yml_file))]))
       = (Ok env_path, wa) ->
     writable_enter L (canary conda_prefix) (env_canary n conda_prefix) wa
       = (Ok tt, w1) ->
     exists evs cmd,
       trace (snd (update_from_yml L yml_file enforce_readonly conda_prefix w))
         = trace w ++ evs /\
       opens evs = [(yml_file, "r")] /\
       commands evs = [("conda info --json", true); (cmd, false)] /\
       cmd = match env_path with
             | Some _ => "conda env update --file environment.yml --prune"
             | None => "conda env create --file environment.yml"
             end /\
       substring_of " --file environment.yml" cmd) /\
  (exists (w : World) (yml_file : Path) (m m' : Z) (text text' : string)
          (evs : list event),
     fs w !! yml_file = Some (File m text) /\
     fs w !! path_of_string "environment.yml" = Some (File m' text') /\
     yml_file <> path_of_string "environment.yml" /\
     text <> text' /\
     trace (snd (update_from_yml Demo.lib yml_file true Demo.conda_prefix w))
       = trace w ++ evs /\
     opens evs = [(yml_file, "r")] /\
     commands evs = [("conda info --json", true);
                     ("conda env create --file environment.yml", false)]).
Proof.
  split; [| split].
  - intros L yml_file enforce_readonly conda_prefix.
    apply emits_update_from_yml.
  - intros L yml_file enforce_readonly conda_prefix w m text doc n env_path
      wa w1 Hf Hy Hn Hfind Henter.
    destruct (update_from_yml_calls L yml_file enforce_readonly conda_prefix
                w m text doc n env_path wa w1 Hf Hy Hn Hfind Henter)
      as (evs & Ht & Ho & Hc & _).
    exists evs. eexists. split; [exact Ht |]. split; [exact Ho |].
    split; [exact Hc |]. split.
    + destruct env_path; reflexivity.
    + destruct env_path.
      * exists "conda env update", " --prune". reflexivity.
      * exists "conda env create", "". reflexivity.
  - destruct (update_from_yml_calls Demo.lib ["proj.yml"] true
                Demo.conda_prefix Demo.w_two 420 Demo.proj_yml
                (PDict [("name", PStr "proj");
                        ("dependencies", PList [PStr "numpy"])])
                "proj" None
                (listed Demo.lib ["proj.yml"] (PStr "proj") Demo.w_two)
                (entered Demo.lib "proj" Demo.conda_prefix
                   (listed Demo.lib ["proj.yml"] (PStr "proj") Demo.w_two))
                eq_refl eq_refl eq_refl eq_refl eq_refl)
      as (evs & Ht & Ho & Hc & _).
    exists Demo.w_two, ["proj.yml"], 420, 420, Demo.proj_yml, Demo.other_yml, evs.
    split; [reflexivity |]. split; [reflexivity |].
    split; [discriminate |]. split; [| auto].
    intros H. apply String.eqb_eq in H. vm_compute in H. discriminate H.
Qed.

Lemma update_from_yml_literal_file_witness :
  exists evs cmd,
    trace (snd (update_from_yml Demo.lib ["proj.yml"] true Demo.conda_prefix
                  Demo.w_two)) = trace Demo.w_two ++ evs /\
    opens evs = [(["proj.yml"], "r")] /\
    commands evs = [("conda info --json", true); (cmd, false)] /\
    cmd = "conda env create --file environment.yml" /\
    substring_of " --file environment.yml" cmd.
Proof.
  apply (proj1 (proj2 update_from_yml_literal_file) Demo.lib ["proj.yml"] true
           Demo.conda_prefix Demo.w_two 420 Demo.proj_yml
           (PDict [("name", PStr "proj"); ("dependencies", PList [PStr "numpy"])])
           "proj" None
           (listed Demo.lib ["proj.yml"] (PStr "proj") Demo.w_two)
           (entered Demo.lib "proj" Demo.conda_prefix
              (listed Demo.lib ["proj.yml"] (PStr "proj") Demo.w_two)));
    reflexivity.
Defined.

(** ** update_from_yml: the command and the guard *)




(** C2, as the code has it. A manifest with a name whose dependency list is
    empty, or absent, is not rejected: once [find_env] has answered and the
    guard has been entered, the base canary has been made writable and the
    update or the create command has been handed to [subprocess.run], as for
    any other manifest. *)
Theorem update_from_yml_accepts_empty_dependencies (L : Lib) (yml_file : Path)
    (enforce_readonly : bool) (conda_prefix : Path) (w : World) (m : Z)
    (text : string) (doc : pyobj) (n : string) (env_path : option string)
    (wa w1 : World) :
  fs w !! yml_file = Some (File m text) ->
  yaml_load L text = Ok doc ->
  getitem doc "name" = Ok (PStr n) ->
  getitem doc "dependencies" = Ok (PList []) \/
  getitem doc "dependencies" = Raise KeyError ->
  find_env L (PStr n)
    (mkWorld (fs w)
       (trace w ++ [EvOpen yml_file "r";
                    EvPrint (found_msg (PStr n) (resolve L (fs w) yml_file))]))
    = (Ok env_path, wa) ->
  writable_enter L (canary conda_prefix) (env_canary n conda_prefix) wa
    = (Ok tt, w1) ->
  exists evs,
    trace (snd (update_from_yml L yml_file enforce_readonly conda_prefix w)) =
      trace w ++ evs /\
    In (EvChmod (canary conda_prefix) S_IWRITE) evs /\
    commands evs =
      [("conda info --json", true);
       (match env_path with
        | Some _ => "conda env update --file environment.yml --prune"
        | None => "conda env create --file environment.yml"
        end, false)].
Proof.
  intros Hf Hy Hn _ Hfind Henter.
  destruct (update_from_yml_calls L yml_file enforce_readonly conda_prefix
              w m text doc n env_path wa w1 Hf Hy Hn Hfind Henter)
    as (evs & Ht & _ & Hc & Hin).
  exists evs. split; [exact Ht |]. split; [exact Hin |].
  rewrite Hc. destruct env_path; reflexivity.
Qed.

Lemma update_from_yml_accepts_empty_dependencies_witness :
  exists evs,
    trace (snd (update_from_yml Demo.lib ["environment.yml"] true
                  Demo.conda_prefix Demo.w_nodeps)) = trace Demo.w_nodeps ++ evs /\
    In (EvChmod (canary Demo.conda_prefix) S_IWRITE) evs /\
    commands evs =
      [("conda info --json", true);
       ("conda env create --file environment.yml", false)].
Proof.
  apply (update_from_yml_accepts_empty_dependencies Demo.lib ["environment.yml"]
           true Demo.conda_prefix Demo.w_nodeps 420 Demo.nodeps_yml
           (PDict [("name", PStr "proj"); ("dependencies", PList [])])
           "proj" None
           (listed Demo.lib ["environment.yml"] (PStr "proj") Demo.w_nodeps)
           (entered Demo.lib "proj" Demo.conda_prefix
              (listed Demo.lib ["environment.yml"] (PStr "proj") Demo.w_nodeps)));
    try reflexivity.
  left. reflexivity.
Defined.

(** C6, as the code has it. Two runs in succession need not take the create
    and then the update branch.  Where a command line given as one string
    is started as such, and the manifest handed over is [proj.yml] while
    [environment.yml] names another environment, both runs end normally,
    but both look [proj] up in vain and hand the create command over.  On
    POSIX, with the default manifest, both runs raise [FileNotFoundError]
    at [subprocess.run]; the canaries are read-only after each. *)
Theorem update_from_yml_twice :
  let sync :=
    update_from_yml Demo.lib ["proj.yml"] true Demo.conda_prefix in
  let posix_sync :=
    update_from_yml Demo.posix_lib ["environment.yml"] true Demo.conda_prefix in
  (fst (sync Demo.w_two) = Ok tt /\
   fst (sync (snd (sync Demo.w_two))) = Ok tt /\
   commands (trace (snd (sync (snd (sync Demo.w_two))))) =
     [("conda info --json", true);
      ("conda env create --file environment.yml", false);
      ("conda info --json", true);
      ("conda env create --file environment.yml", false)]) /\
  (fst (posix_sync Demo.w_proj) = Raise FileNotFoundError /\
   fst (posix_sync (snd (posix_sync Demo.w_proj))) = Raise FileNotFoundError /\
   forall c, In c (canaries "proj" Demo.conda_prefix) ->
     mode_of (fs (snd (posix_sync Demo.w_proj))) c = Some S_IREAD /\
     mode_of (fs (snd (posix_sync (snd (posix_sync Demo.w_proj))))) c
       = Some S_IREAD).
Proof.
  intros sync posix_sync. subst sync posix_sync.
  split; [split; [| split] | split; [| split]];
    try (vm_compute; reflexivity).
  intros c Hc. apply in_canaries in Hc as [->|Hc].
  - split; vm_compute; reflexivity.
  - vm_compute in Hc. injection Hc as <-. split; vm_compute; reflexivity.
Qed.

(** ** set_env_vars *)

Lemma str_app_assoc (a b c : string) : (a +:+ b) +:+ c = a +:+ (b +:+ c).
Proof.
  induction a as [|x a IH]; [reflexivity |].
  change (String x ((a +:+ b) +:+ c) = String x (a +:+ (b +:+ c))).
  rewrite IH. reflexivity.
Qed.

Lemma str_app_empty_r (a : string) : a +:+ "" = a.
Proof.
  induction a as [|x a IH]; [reflexivity |].
  change (String x (a +:+ "") = String x a). rewrite IH. reflexivity.
Qed.

Lemma joined_app (l1 l2 : list string) :
  joined (l1 ++ l2) = joined l1 +:+ joined l2.
Proof.
  induction l1 as [|s l1 IH]; [reflexivity |].
  change (s +:+ joined (l1 ++ l2) = (s +:+ joined l1) +:+ joined l2).
  rewrite IH, str_app_assoc. reflexivity.
Qed.

(** Extending a list with a string adds its characters one by one; joined
    again, they are the string. *)
Lemma joined_chars (s : string) : joined (chars s) = s.
Proof.
  unfold chars. induction s as [|c s IH]; [reflexivity |].
  change (String c (joined (List.map (fun c => String c EmptyString)
                              (list_ascii_of_string s))) = String c s).
  rewrite IH. reflexivity.
Qed.

Lemma joined_extend (buf : list string) (s : string) :
  joined (extend buf s) = joined buf +:+ s.
Proof. unfold extend. rewrite joined_app, joined_chars. reflexivity. Qed.

Lemma add_var_joined (s : scripts) (kv : string * string) :
  joined (activate_sh (add_var s kv)) = joined (activate_sh s) +:+ export_line kv /\
  joined (activate_bat (add_var s kv)) = joined (activate_bat s) +:+ set_line kv /\
  joined (deactivate_sh (add_var s kv)) = joined (deactivate_sh s) +:+ unset_line kv /\
  joined (deactivate_bat (add_var s kv)) = joined (deactivate_bat s) +:+ clear_line kv.
Proof.
  destruct kv as [var val]. unfold add_var.
  cbn [activate_sh activate_bat deactivate_sh deactivate_bat].
  rewrite !joined_extend. repeat split; reflexivity.
Qed.

Lemma format_scripts_from (env_vars : list (string * string)) (s : scripts) :
  let r := fold_left add_var env_vars s in
  joined (activate_sh r) = joined (activate_sh s) +:+ joined (List.map export_line env_vars) /\
  joined (activate_bat r) = joined (activate_bat s) +:+ joined (List.map set_line env_vars) /\
  joined (deactivate_sh r) = joined (deactivate_sh s) +:+ joined (List.map unset_line env_vars) /\
  joined (deactivate_bat r) = joined (deactivate_bat s) +:+ joined (List.map clear_line env_vars).
Proof.
  revert s. induction env_vars as [|kv vars IH]; intros s r; subst r.
  - cbn [fold_left List.map joined fold_right].
    rewrite !str_app_empty_r. repeat split; reflexivity.
  - cbn [fold_left List.map].
    destruct (IH (add_var s kv)) as (H1 & H2 & H3 & H4).
    destruct (add_var_joined s kv) as (A1 & A2 & A3 & A4).
    rewrite H1, H2, H3, H4, A1, A2, A3, A4, !str_app_assoc.
    repeat split; reflexivity.
Qed.

(** X1. The four buffers [set_env_vars] builds, although extended character
    by character, join to the intended scripts: the shell header and one
    [export VAR=value] (activate) or [unset VAR] (deactivate) line per
    variable, and for Windows one [set VAR=value] or [set VAR=] line per
    variable with no header, all in the order of the mapping. *)
Theorem format_scripts_text (env_vars : list (string * string)) :
  joined (activate_sh (format_scripts env_vars)) =
    script_text ("#!/bin/sh" +:+ nl) export_line env_vars /\
  joined (activate_bat (format_scripts env_vars)) =
    script_text "" set_line env_vars /\
  joined (deactivate_sh (format_scripts env_vars)) =
    script_text ("#!/bin/sh" +:+ nl) unset_line env_vars /\
  joined (deactivate_bat (format_scripts env_vars)) =
    script_text "" clear_line env_vars.
Proof.
  unfold format_scripts, script_text.
  destruct (format_scripts_from env_vars skeleton) as (H1 & H2 & H3 & H4).
  rewrite H1, H2, H3, H4. repeat split; reflexivity.
Qed.

Lemma only_adds_dirs_refl f : only_adds_dirs f f.
Proof. intros q. left. reflexivity. Qed.

Lemma only_adds_dirs_trans f g h :
  only_adds_dirs f g -> only_adds_dirs g h -> only_adds_dirs f h.
Proof.
  intros H1 H2 q. destruct (H2 q) as [E2|(E2 & m & E2')].
  - rewrite E2. apply H1.
  - destruct (H1 q) as [E1|(E1 & m1 & E1')].
    + right. split; [rewrite <- E1; exact E2 | eauto].
    + congruence.
Qed.

Lemma os_mkdir_only_adds_dirs (L : Lib) p f f' :
  os_mkdir L p f = Ok f' -> only_adds_dirs f f'.
Proof.
  unfold os_mkdir. destruct (refuses L (OsMkdir p) f); [discriminate |].
  destruct (f !! p) eqn:E; [discriminate |].
  intros H q. rewrite (create_at_adds _ _ _ _ q H).
  destruct (decide (p = q)) as [<-|]; [right | left; reflexivity].
  split; [exact E | eauto].
Qed.

Lemma mkdir_go_only_adds_dirs (L : Lib) depth p f f' :
  mkdir_go L depth p f = Ok f' -> only_adds_dirs f f'.
Proof.
  revert p f f'. induction depth as [|d IH]; intros p f f'; simpl.
  - destruct (os_mkdir L p f) as [g|e] eqn:E.
    + intros [= <-]. eapply os_mkdir_only_adds_dirs, E.
    + destruct e; try discriminate;
        (destruct (is_dir f p); [intros [= <-]; apply only_adds_dirs_refl | discriminate]).
  - destruct (os_mkdir L p f) as [g|e] eqn:E.
    + intros [= <-]. eapply os_mkdir_only_adds_dirs, E.
    + destruct e;
        try (destruct (is_dir f p);
             [intros [= <-]; apply only_adds_dirs_refl | discriminate]).
      destruct (path_eqb (parent p) p); [discriminate |].
      destruct (mkdir_go L d (parent p) f) as [f1|e1] eqn:E1; [| discriminate].
      apply IH in E1.
      destruct (os_mkdir L p f1) as [f2|e2] eqn:E2.
      * intros [= <-]. eapply only_adds_dirs_trans; [exact E1 |].
        eapply os_mkdir_only_adds_dirs, E2.
      * destruct e2; try discriminate;
          (destruct (is_dir f1 p); [intros [= <-]; exact E1 | discriminate]).
Qed.

Lemma only_adds_dirs_files f f' p m d :
  only_adds_dirs f f' ->
  (f' !! p = Some (File m d) <-> f !! p = Some (File m d)).
Proof.
  intros H. destruct (H p) as [E|(E & m' & E')].
  - rewrite E. reflexivity.
  - rewrite E, E'. split; discriminate.
Qed.


(** C5, as the code has it. With the mapping [{"FOO": "bar"}] the call
    raises after the [mkdir] of [activate.d] and writes nothing: it opens
    no file, the files of the world are those there were, with their
    content, and an [env_vars.sh] that was not there before cannot be read
    afterwards either, in [activate.d] or in [deactivate.d]. *)
Theorem set_env_vars_writes_no_script (L : Lib) (env_path : Path) (w : World) :
  exists e w',
    set_env_vars L [("FOO", "bar")] env_path w = (Raise e, w') /\
    opens (trace w') = opens (trace w) /\
    (forall p m d, fs w' !! p = Some (File m d) <-> fs w !! p = Some (File m d)) /\
    forall script,
      In script
        [joinpath (joinpath env_path "etc/conda/activate.d") "env_vars.sh";
         joinpath (joinpath env_path "etc/conda/deactivate.d") "env_vars.sh"] ->
      fs w !! script = None ->
      exists e', fst (open_read script w') = Raise e'.
Proof.
  assert (Hread : forall f' tr script,
             only_adds_dirs (fs w) f' -> fs w !! script = None ->
             exists e', fst (open_read script (mkWorld f' tr)) = Raise e').
  { intros f' tr script Hd Hs. unfold open_read, bind, emit. simpl.
    destruct (Hd script) as [E|(_ & m & E)]; rewrite E.
    - rewrite Hs. eauto.
    - eauto. }
  unfold set_env_vars. unfold bind at 1. rewrite mkdir_parents_run.
  destruct (mkdir_go L (length (joinpath env_path "etc/conda/activate.d"))
              (joinpath env_path "etc/conda/activate.d") (fs w)) as [f'|e] eqn:E.
  - exists TypeError. eexists. split; [reflexivity |]. simpl.
    pose proof (mkdir_go_only_adds_dirs L _ _ _ _ E) as Hd.
    split; [rewrite opens_app, app_nil_r; reflexivity |].
    split; [intros p m d; apply only_adds_dirs_files, Hd |].
    intros script _ Hs. apply Hread; assumption.
  - exists e. eexists. split; [reflexivity |]. simpl.
    split; [rewrite opens_app, app_nil_r; reflexivity |].
    split; [reflexivity |].
    intros script _ Hs. apply Hread; [apply only_adds_dirs_refl | assumption].
Qed.

(** ** update_from_yml: what a manifest is used for *)



(** X5. When the manifest has no [name], [update_from_yml] raises on
    [environment_yml["name"]]: [KeyError] for a mapping without that key,
    [TypeError] for a document that is not a mapping (an empty file reads as
    [None]). It does so after the one call that opened the manifest:
    nothing is printed, conda is not run and no canary is touched. *)
Theorem update_from_yml_missing_name (L : Lib) (yml_file : Path)
    (enforce_readonly : bool) (conda_prefix : Path) (w : World)
    (m : Z) (text : string) (doc : pyobj) (e : exn) :
  fs w !! yml_file = Some (File m text) ->
  yaml_load L text = Ok doc ->
  getitem doc "name" = Raise e ->
  update_from_yml L yml_file enforce_readonly conda_prefix w =
    (Raise e, mkWorld (fs w) (trace w ++ [EvOpen yml_file "r"])) /\
  e = match doc with PDict _ => KeyError | _ => TypeError end.
Proof.
  intros Hf Hy Hn. split.
  - unfold update_from_yml, open_read. unfold bind at 1. unfold bind at 1.
    unfold emit. simpl. rewrite Hf. unfold bind at 1. unfold lift at 1.
    rewrite Hy. unfold bind at 1. unfold lift at 1. rewrite Hn. reflexivity.
  - destruct doc; simpl in Hn; try (injection Hn as <-; reflexivity).
    destruct (assoc "name" d); [discriminate | injection Hn as <-; reflexivity].
Qed.

Lemma update_from_yml_missing_name_witness :
  update_from_yml Demo.lib ["environment.yml"] true Demo.conda_prefix Demo.w_noname =
    (Raise KeyError,
     mkWorld (fs Demo.w_noname)
       (trace Demo.w_noname ++ [EvOpen ["environment.yml"] "r"])) /\
  KeyError = KeyError.
Proof.
  apply (update_from_yml_missing_name Demo.lib ["environment.yml"] true
           Demo.conda_prefix Demo.w_noname 420 Demo.noname_yml
           (PDict [("dependencies", PList [PStr "numpy"])]) KeyError);
    reflexivity.
Defined.

(** X6. Of the manifest, [update_from_yml] uses the [name] and nothing
    else: run against two YAML readers that agree on the name of the
    manifest, it makes the same calls and ends in the same way. In
    particular the dependency list is never looked at, so a manifest with
    an empty or absent one is processed like any other. *)
Theorem update_from_yml_reads_name_only (L : Lib)
    (reader : string -> Result pyobj) (yml_file : Path)
    (enforce_readonly : bool) (conda_prefix : Path) (w : World)
    (m : Z) (text : string) (doc doc' env_name : pyobj) :
  fs w !! yml_file = Some (File m text) ->
  yaml_load L text = Ok doc ->
  reader text = Ok doc' ->
  getitem doc "name" = Ok env_name ->
  getitem doc' "name" = Ok env_name ->
  update_from_yml (with_yaml L reader) yml_file enforce_readonly conda_prefix w =
  update_from_yml L yml_file enforce_readonly conda_prefix w.
Proof.
  intros Hf Hy Hy' Hn Hn'.
  rewrite (update_from_yml_head L yml_file enforce_readonly conda_prefix
             w m text doc env_name Hf Hy Hn).
  rewrite (update_from_yml_head (with_yaml L reader) yml_file enforce_readonly
             conda_prefix w m text doc' env_name Hf Hy' Hn').
  reflexivity.
Qed.

Lemma update_from_yml_reads_name_only_witness :
  update_from_yml
    (with_yaml Demo.lib
       (fun _ => Ok (PDict [("name", PStr "proj"); ("dependencies", PList [])])))
    ["environment.yml"] true Demo.conda_prefix Demo.w_proj =
  update_from_yml Demo.lib ["environment.yml"] true Demo.conda_prefix Demo.w_proj.
Proof.
  apply (update_from_yml_reads_name_only Demo.lib _ ["environment.yml"] true
           Demo.conda_prefix Demo.w_proj 420 Demo.proj_yml
           (PDict [("name", PStr "proj"); ("dependencies", PList [PStr "numpy"])])
           (PDict [("name", PStr "proj"); ("dependencies", PList [])])
           (PStr "proj"));
    reflexivity.
Defined.

Lemma env_canary_of_not_str (x : pyobj) (conda_prefix : Path) :
  is_str x = false -> env_canary_of x conda_prefix = Raise TypeError.
Proof. destruct x; try reflexivity. discriminate. Qed.

Lemma find_env_loop_not_str (x : pyobj) (paths : list string) :
  is_str x = false ->
  find_env_loop x paths = match paths with [] => Ok None | _ :: _ => Raise TypeError end.
Proof.
  intros H. destruct paths as [|p paths]; [reflexivity |].
  destruct x; try reflexivity. discriminate.
Qed.

(** X7. When the manifest's [name] is not a string (a number, a list,
    [None], ...), [update_from_yml] prints its message, asks conda for its
    environments and then raises [TypeError], in [find_env] if conda listed
    any environment and otherwise on the path of the canary: the guard is
    never entered, so no canary is touched, and neither the update nor the
    create command is run. *)
Theorem update_from_yml_name_not_str (L : Lib) (yml_file : Path)
    (enforce_readonly : bool) (conda_prefix : Path) (w : World)
    (m : Z) (text : string) (doc env_name : pyobj) (out : string)
    (f1 : gmap Path node) (paths : list string) :
  fs w !! yml_file = Some (File m text) ->
  yaml_load L text = Ok doc ->
  getitem doc "name" = Ok env_name ->
  is_str env_name = false ->
  spawn L "conda info --json" true (fs w) = (Ok out, f1) ->
  json_envs L out = Ok paths ->
  update_from_yml L yml_file enforce_readonly conda_prefix w =
    (Raise TypeError,
     mkWorld f1 (trace w ++ head_events yml_file env_name
                              (resolve L (fs w) yml_file))).
Proof.
  intros Hf Hy Hn Hstr Hs Hj.
  rewrite (update_from_yml_head L yml_file enforce_readonly conda_prefix
             w m text doc env_name Hf Hy Hn).
  unfold bind at 1.
  rewrite (find_env_run L env_name
             (mkWorld (fs w)
                (trace w ++ [EvOpen yml_file "r";
                   EvPrint (found_msg env_name (resolve L (fs w) yml_file))]))
             out f1 paths Hs Hj).
  rewrite (find_env_loop_not_str env_name paths Hstr). simpl.
  rewrite <- app_assoc. simpl.
  destruct paths; [| reflexivity].
  unfold writable. unfold bind at 1. unfold lift.
  rewrite (env_canary_of_not_str env_name conda_prefix Hstr). reflexivity.
Qed.

Lemma update_from_yml_name_not_str_witness :
  update_from_yml (with_yaml Demo.lib (fun _ => Ok (PDict [("name", PInt 3)])))
    ["environment.yml"] true Demo.conda_prefix Demo.w_proj =
    (Raise TypeError,
     mkWorld (fs Demo.w_proj)
       (trace Demo.w_proj ++
        head_events ["environment.yml"] (PInt 3)
          (resolve Demo.lib (fs Demo.w_proj) ["environment.yml"]))).
Proof.
  apply (update_from_yml_name_not_str
           (with_yaml Demo.lib (fun _ => Ok (PDict [("name", PInt 3)])))
           ["environment.yml"] true Demo.conda_prefix Demo.w_proj 420
           Demo.proj_yml (PDict [("name", PInt 3)]) (PInt 3) "" (fs Demo.w_proj) []);
    reflexivity.
Defined.

(** X8. When the conda query itself fails, or its output cannot be decoded,
    [update_from_yml] raises that error right after its message: the guard
    is never entered, so no canary is touched, and neither the update nor
    the create command is run. *)
Theorem update_from_yml_query_fails (L : Lib) (yml_file : Path)
    (enforce_readonly : bool) (conda_prefix : Path) (w : World)
    (m : Z) (text : string) (doc env_name : pyobj) (e : exn)
    (r : Result string) (f1 : gmap Path node) :
  fs w !! yml_file = Some (File m text) ->
  yaml_load L text = Ok doc ->
  getitem doc "name" = Ok env_name ->
  spawn L "conda info --json" true (fs w) = (r, f1) ->
  (r = Raise e \/ exists out, r = Ok out /\ json_envs L out = Raise e) ->
  update_from_yml L yml_file enforce_readonly conda_prefix w =
    (Raise e,
     mkWorld f1 (trace w ++ head_events yml_file env_name
                              (resolve L (fs w) yml_file))).
Proof.
  intros Hf Hy Hn Hs Hr.
  rewrite (update_from_yml_head L yml_file enforce_readonly conda_prefix
             w m text doc env_name Hf Hy Hn).
  unfold bind at 1. unfold find_env, subprocess_run.
  unfold bind at 1. unfold bind at 1. unfold emit. simpl. rewrite Hs.
  rewrite <- app_assoc. simpl.
  destruct Hr as [->|(out & -> & Hj)]; [reflexivity |].
  unfold bind, lift. rewrite Hj. reflexivity.
Qed.

Lemma update_from_yml_query_fails_witness :
  update_from_yml
    (mkLib 18 Demo.demo_resolve Demo.demo_yaml Demo.demo_envs
       (fun _ _ f => (Raise (ExternalError "conda"), f)))
    ["environment.yml"] true Demo.conda_prefix Demo.w_proj =
    (Raise (ExternalError "conda"),
     mkWorld (fs Demo.w_proj)
       (trace Demo.w_proj ++
        head_events ["environment.yml"] (PStr "proj")
          (Demo.demo_resolve (fs Demo.w_proj) ["environment.yml"]))).
Proof.
  apply (update_from_yml_query_fails
           (mkLib 18 Demo.demo_resolve Demo.demo_yaml Demo.demo_envs
              (fun _ _ f => (Raise (ExternalError "conda"), f)))
           ["environment.yml"] true Demo.conda_prefix Demo.w_proj 420
           Demo.proj_yml
           (PDict [("name", PStr "proj"); ("dependencies", PList [PStr "numpy"])])
           (PStr "proj") (ExternalError "conda") (Raise (ExternalError "conda"))
           (fs Demo.w_proj));
    try reflexivity.
  left. reflexivity.
Defined.

(** X9. A run of [update_from_yml] with [enforce_readonly] that got into the
    guard, and whose exit chmods then complete, ends the way the conda
    command ended (normally, or with the error [subprocess.run] raised) and
    leaves every canary read-only. *)
Theorem update_from_yml_restores (L : Lib) (yml_file : Path)
    (conda_prefix : Path) (w : World) (m : Z) (text : string) (doc : pyobj)
    (n : string) (env_path : option string) (wa w1 w2 w3 : World)
    (r : Result unit) :
  fs w !! yml_file = Some (File m text) ->
  yaml_load L text = Ok doc ->
  getitem doc "name" = Ok (PStr n) ->
  find_env L (PStr n)
    (mkWorld (fs w)
       (trace w ++ [EvOpen yml_file "r";
                    EvPrint (found_msg (PStr n) (resolve L (fs w) yml_file))]))
    = (Ok env_path, wa) ->
  writable_enter L (canary conda_prefix) (env_canary n conda_prefix) wa
    = (Ok tt, w1) ->
  update_or_create L (PStr n) env_path w1 = (r, w2) ->
  writable_exit L true (canary conda_prefix) (env_canary n conda_prefix) w2
    = (Ok tt, w3) ->
  update_from_yml L yml_file true conda_prefix w = (r, w3) /\
  forall c, In c (canaries n conda_prefix) ->
    mode_of (fs w3) c = Some S_IREAD /\ is_readonly S_IREAD = true.
Proof.
  intros Hf Hy Hn Hfind Henter Hbody Hexit. split.
  - rewrite (update_from_yml_head L yml_file true conda_prefix w m text doc
               (PStr n) Hf Hy Hn).
    unfold bind at 1. rewrite Hfind.
    apply (writable_run L n true conda_prefix _ wa w1 r w2 (Ok tt) w3
             Henter Hbody Hexit).
  - destruct (writable_exit_modes L _ _ w2 w3 Hexit) as (Hb & He).
    intros c Hc. split; [| reflexivity].
    apply in_canaries in Hc as [->|Hc]; [exact Hb | exact (He c Hc)].
Qed.

(** On POSIX the command is not even started: [subprocess.run] raises
    [FileNotFoundError], and the canaries are made read-only all the same. *)
Lemma update_from_yml_restores_witness :
  exists w3,
    update_from_yml Demo.posix_lib ["environment.yml"] true Demo.conda_prefix
      Demo.w_proj = (Raise FileNotFoundError, w3) /\
    forall c, In c (canaries "proj" Demo.conda_prefix) ->
      mode_of (fs w3) c = Some S_IREAD /\ is_readonly S_IREAD = true.
Proof.
  eexists.
  apply (update_from_yml_restores Demo.posix_lib ["environment.yml"]
           Demo.conda_prefix Demo.w_proj 420 Demo.proj_yml
           (PDict [("name", PStr "proj"); ("dependencies", PList [PStr "numpy"])])
           "proj" None
           (listed Demo.posix_lib ["environment.yml"] (PStr "proj") Demo.w_proj)
           (entered Demo.posix_lib "proj" Demo.conda_prefix
              (listed Demo.posix_lib ["environment.yml"] (PStr "proj") Demo.w_proj))
           (snd (update_or_create Demo.posix_lib (PStr "proj") None
                   (entered Demo.posix_lib "proj" Demo.conda_prefix
                      (listed Demo.posix_lib ["environment.yml"] (PStr "proj")
                         Demo.w_proj))))
           (snd (writable_exit Demo.posix_lib true (canary Demo.conda_prefix)
                   (env_canary "proj" Demo.conda_prefix)
                   (snd (update_or_create Demo.posix_lib (PStr "proj") None
                           (entered Demo.posix_lib "proj" Demo.conda_prefix
                              (listed Demo.posix_lib ["environment.yml"]
                                 (PStr "proj") Demo.w_proj))))))
           (Raise FileNotFoundError));
    reflexivity.
Defined.

(** ** The guard when its entry fails *)



(** X11. When the entry of the guard fails and the exit's chmod of the base
    canary then succeeds (the base canary was touched and made writable,
    and it is the named environment's directory or canary that could not be
    made), the guard with [enforce_readonly] still leaves the base canary
    read-only, and raises without running the body. *)
Theorem writable_entry_failure_restores_base (L : Lib) (n : string)
    (conda_prefix : Path) (w w1 : World) (e : exn) (f3 : gmap Path node) :
  writable_enter L (canary conda_prefix) (env_canary n conda_prefix) w
    = (Raise e, w1) ->
  chmod_step L (canary conda_prefix) S_IREAD (fs w1) = Ok f3 ->
  exists e' w3,
    (forall body : M unit,
       writable L (PStr n) true conda_prefix body w = (Raise e', w3)) /\
    mode_of (fs w3) (canary conda_prefix) = Some S_IREAD.
Proof.
  intros Henter E3.
  assert (Hmode : mode_of f3 (canary conda_prefix) = Some S_IREAD).
  { rewrite (chmod_step_mode L _ _ _ _ (canary conda_prefix) E3).
    destruct (decide (canary conda_prefix = canary conda_prefix));
      [reflexivity | contradiction]. }
  assert (Hexit : exists r w3,
             writable_exit L true (canary conda_prefix)
               (env_canary n conda_prefix) w1 = (r, w3) /\
             mode_of (fs w3) (canary conda_prefix) = Some S_IREAD).
  { unfold writable_exit. unfold bind. rewrite chmod_run, E3.
    destruct (env_canary n conda_prefix) as [ec|].
    - rewrite chmod_run. simpl.
      destruct (chmod_step L ec S_IREAD f3) as [f4|e4] eqn:E4.
      + eexists _, _. split; [reflexivity |]. simpl.
        rewrite (chmod_step_mode L _ _ _ _ (canary conda_prefix) E4).
        destruct (decide (ec = canary conda_prefix)); [reflexivity | exact Hmode].
      + eexists _, _. split; [reflexivity | exact Hmode].
    - eexists _, _. split; [reflexivity | exact Hmode]. }
  destruct Hexit as ([u|e'] & w3 & Hexit & Hm).
  - exists e, w3. split; [| exact Hm].
    intros body. rewrite writable_unfold. unfold try_finally.
    unfold bind at 1. rewrite Henter, Hexit. reflexivity.
  - exists e', w3. split; [| exact Hm].
    intros body. rewrite writable_unfold. unfold try_finally.
    unfold bind at 1. rewrite Henter, Hexit. reflexivity.
Qed.

Lemma writable_entry_failure_restores_base_witness :
  exists e' w3,
    (forall body : M unit,
       writable Demo.lib (PStr "proj") true Demo.conda_prefix body w_envs_file
         = (Raise e', w3)) /\
    mode_of (fs w3) (canary Demo.conda_prefix) = Some S_IREAD.
Proof.
  apply (writable_entry_failure_restores_base Demo.lib "proj"
           Demo.conda_prefix w_envs_file
           (snd (writable_enter Demo.lib (canary Demo.conda_prefix)
                   (env_canary "proj" Demo.conda_prefix) w_envs_file))
           NotADirectoryError
           (<[canary Demo.conda_prefix := File S_IREAD ""]>
              (fs (snd (writable_enter Demo.lib (canary Demo.conda_prefix)
                          (env_canary "proj" Demo.conda_prefix) w_envs_file)))));
    reflexivity.
Defined.

(** ** What the entry of the guard leaves alone *)

Lemma same_content_refl n : same_content n n.
Proof. reflexivity. Qed.

Lemma same_content_trans a b c :
  same_content a b -> same_content b c -> same_content a c.
Proof. unfold same_content. congruence. Qed.

Lemma same_content_set_mode m n : same_content n (set_mode m n).
Proof. destruct n; reflexivity. Qed.

Lemma same_content_Dir m n : same_content (Dir m) n -> exists m', n = Dir m'.
Proof. destruct n; [eauto | discriminate]. Qed.

Lemma same_content_File m d n :
  same_content (File m d) n -> exists m', n = File m' d.
Proof.
  destruct n as [|m' d']; [discriminate |]. unfold same_content. simpl.
  intros [= <-]. eauto.
Qed.

Lemma guard_frame_refl cs f : guard_frame cs f f.
Proof.
  intros q. destruct (f !! q) as [n|] eqn:E; [| auto].
  exists n. split; [reflexivity |]. split; [apply same_content_refl | auto].
Qed.

Lemma guard_frame_trans cs f g h :
  guard_frame cs f g -> guard_frame cs g h -> guard_frame cs f h.
Proof.
  intros H1 H2 q. specialize (H1 q). specialize (H2 q).
  destruct (f !! q) as [n|].
  - destruct H1 as (n1 & E1 & S1 & K1). rewrite E1 in H2.
    destruct H2 as (n2 & E2 & S2 & K2). exists n2. split; [exact E2 |].
    split; [eapply same_content_trans; eauto |].
    intros Hq. rewrite (K2 Hq). apply K1, Hq.
  - destruct H1 as [E1|[[m E1]|(Hq & m & E1)]]; rewrite E1 in H2.
    + exact H2.
    + destruct H2 as (n2 & E2 & S2 & _).
      apply same_content_Dir in S2 as [m' ->]. eauto.
    + destruct H2 as (n2 & E2 & S2 & _).
      apply same_content_File in S2 as [m' ->]. right. right. eauto.
Qed.

Lemma guard_frame_only_adds_dirs cs f f' :
  only_adds_dirs f f' -> guard_frame cs f f'.
Proof.
  intros H q. destruct (H q) as [E|(E & m & E')].
  - rewrite E. destruct (f !! q) as [n|]; [| auto].
    exists n. split; [reflexivity |]. split; [apply same_content_refl | auto].
  - rewrite E. eauto.
Qed.

Lemma guard_frame_touch (L : Lib) cs p f f' :
  In p cs -> touch_step L p f = Ok f' -> guard_frame cs f f'.
Proof.
  unfold touch_step. intros Hp.
  destruct (refuses L (OsTouch p) f); [discriminate |].
  destruct (f !! p) eqn:E.
  - intros [= <-]. apply guard_frame_refl.
  - intros H q. rewrite (create_at_adds _ _ _ _ q H).
    destruct (decide (p = q)) as [<-|Hne].
    + rewrite E. right. right. eauto.
    + destruct (f !! q) as [n|]; [| auto].
      exists n. split; [reflexivity |]. split; [apply same_content_refl | auto].
Qed.

Lemma guard_frame_chmod (L : Lib) cs p m f f' :
  In p cs -> chmod_step L p m f = Ok f' -> guard_frame cs f f'.
Proof.
  intros Hp H q. rewrite (chmod_step_lookup L _ _ _ _ q H).
  apply chmod_step_inv in H as (n0 & E & _).
  destruct (decide (p = q)) as [<-|Hne].
  - rewrite E. simpl. exists (set_mode m n0). split; [reflexivity |].
    split; [apply same_content_set_mode | contradiction].
  - destruct (f !! q) as [n|]; [| auto].
    exists n. split; [reflexivity |]. split; [apply same_content_refl | auto].
Qed.

(** X12. A successful entry of the guard removes nothing and rewrites
    nothing: every file and directory that existed is still there with the
    same content, and with the same permission bits unless it is one of the
    canaries; what the entry adds is directories, or an empty canary file. *)
Theorem writable_enter_frame (L : Lib) (n : string) (conda_prefix : Path)
    (w w1 : World) :
  writable_enter L (canary conda_prefix) (env_canary n conda_prefix) w
    = (Ok tt, w1) ->
  guard_frame (canaries n conda_prefix) (fs w) (fs w1).
Proof.
  unfold canaries. generalize (canary conda_prefix) as base.
  generalize (env_canary n conda_prefix) as envc. intros envc base.
  unfold writable_enter. intros H.
  apply bind_Ok_inv in H as (u1 & wa & Ha & H).
  apply bind_Ok_inv in H as (u2 & wb & Hb & H).
  rewrite touch_run in Ha. rewrite chmod_run in Hb.
  destruct (touch_step L base (fs w)) as [fa|] eqn:Ea; [| discriminate].
  injection Ha as _ <-. simpl in Hb.
  destruct (chmod_step L base S_IWRITE fa) as [fb|] eqn:Eb; [| discriminate].
  injection Hb as _ <-.
  assert (Hbase : guard_frame (base :: option_list envc) (fs w) fb).
  { eapply guard_frame_trans.
    - eapply guard_frame_touch; [| exact Ea]. left. reflexivity.
    - eapply guard_frame_chmod; [| exact Eb]. left. reflexivity. }
  destruct envc as [e|].
  - apply bind_Ok_inv in H as (u3 & wc & Hc & H).
    apply bind_Ok_inv in H as (u4 & wd & Hd & H).
    rewrite mkdir_parents_run in Hc. simpl in Hc.
    destruct (mkdir_go L (length (parent e)) (parent e) fb) as [fc|] eqn:Ec;
      [| discriminate].
    injection Hc as _ <-. rewrite touch_run in Hd. simpl in Hd.
    destruct (touch_step L e fc) as [fd|] eqn:Ed; [| discriminate].
    injection Hd as _ <-. rewrite chmod_run in H. simpl in H.
    destruct (chmod_step L e S_IWRITE fd) as [fe|] eqn:Ee; [| discriminate].
    injection H as <-. simpl.
    eapply guard_frame_trans; [exact Hbase |].
    eapply guard_frame_trans.
    { eapply guard_frame_only_adds_dirs, mkdir_go_only_adds_dirs, Ec. }
    eapply guard_frame_trans.
    + eapply guard_frame_touch; [| exact Ed]. right. left. reflexivity.
    + eapply guard_frame_chmod; [| exact Ee]. right. left. reflexivity.
  - injection H as <-. exact Hbase.
Qed.

Lemma writable_enter_frame_witness :
  guard_frame (canaries "proj" Demo.conda_prefix) (fs Demo.w_proj)
    (fs (entered Demo.lib "proj" Demo.conda_prefix Demo.w_proj)).
Proof.
  apply (writable_enter_frame Demo.lib "proj" Demo.conda_prefix Demo.w_proj
           (entered Demo.lib "proj" Demo.conda_prefix Demo.w_proj)).
  reflexivity.
Defined.

Lemma set_mode_idem m n : set_mode m (set_mode m n) = set_mode m n.
Proof. destruct n; reflexivity. Qed.

Lemma only_chmods_refl cs m f : only_chmods cs m f f.
Proof. intros q. left. reflexivity. Qed.

Lemma only_chmods_trans cs m f g h :
  only_chmods cs m f g -> only_chmods cs m g h -> only_chmods cs m f h.
Proof.
  intros H1 H2 q.
  destruct (H2 q) as [E2|(Hq & n2 & E2 & E2')].
  - rewrite E2. apply H1.
  - destruct (H1 q) as [E1|(_ & n1 & E1 & E1')].
    + right. split; [exact Hq |]. exists n2.
      split; [rewrite <- E1; exact E2 | exact E2'].
    + right. split; [exact Hq |]. exists n1. split; [exact E1 |].
      rewrite E1' in E2. injection E2 as <-.
      rewrite E2', set_mode_idem. reflexivity.
Qed.

Lemma only_chmods_chmod (L : Lib) cs p m f f' :
  In p cs -> chmod_step L p m f = Ok f' -> only_chmods cs m f f'.
Proof.
  intros Hp H q. rewrite (chmod_step_lookup L _ _ _ _ q H).
  apply chmod_step_inv in H as (n0 & E & _).
  destruct (decide (p = q)) as [<-|Hne]; [| left; reflexivity].
  right. split; [exact Hp |]. exists n0. rewrite E. auto.
Qed.

(** X13. The exit of the guard adds nothing, removes nothing and rewrites
    nothing, whether it succeeds or fails: all it does is give canaries the
    permission bits [S_IREAD], and with [enforce_readonly] false it leaves
    the file system as it is. *)
Theorem writable_exit_frame (L : Lib) (enforce_readonly : bool) (n : string)
    (conda_prefix : Path) (w2 : World) :
  only_chmods (canaries n conda_prefix) S_IREAD (fs w2)
    (fs (snd (writable_exit L enforce_readonly (canary conda_prefix)
                (env_canary n conda_prefix) w2))) /\
  (enforce_readonly = false ->
   fs (snd (writable_exit L enforce_readonly (canary conda_prefix)
              (env_canary n conda_prefix) w2)) = fs w2).
Proof.
  split; [| intros ->; reflexivity].
  unfold canaries. generalize (canary conda_prefix) as base.
  generalize (env_canary n conda_prefix) as envc. intros envc base.
  unfold writable_exit. destruct enforce_readonly; [| apply only_chmods_refl].
  unfold bind. rewrite chmod_run.
  destruct (chmod_step L base S_IREAD (fs w2)) as [f3|] eqn:E3;
    [| apply only_chmods_refl].
  assert (H3 : only_chmods (base :: option_list envc) S_IREAD (fs w2) f3)
    by (eapply only_chmods_chmod; [| exact E3]; left; reflexivity).
  destruct envc as [e|]; [| exact H3].
  rewrite chmod_run. simpl.
  destruct (chmod_step L e S_IREAD f3) as [f4|] eqn:E4; [| exact H3].
  eapply only_chmods_trans; [exact H3 |].
  eapply only_chmods_chmod; [| exact E4]. right. left. reflexivity.
Qed.

(** X14. Whatever the environment name and the world, the calls the guard
    itself makes, on entry and on exit, are touches and chmods of the canary
    files (to [S_IWRITE] or [S_IREAD]) and the [mkdir] of the directory of
    the named environment's canary: it opens, writes and runs nothing, and
    reaches no other path. *)
Theorem writable_calls_canaries_only (L : Lib) (n : string)
    (enforce_readonly : bool) (conda_prefix : Path) :
  emits (guard_call n conda_prefix)
    (writable_enter L (canary conda_prefix) (env_canary n conda_prefix)) /\
  emits (guard_call n conda_prefix)
    (writable_exit L enforce_readonly (canary conda_prefix)
       (env_canary n conda_prefix)).
Proof.
  split.
  - apply emits_writable_enter.
    + simpl. auto.
    + simpl. auto.
    + intros e He. unfold guard_call, canaries. rewrite He. simpl.
      repeat split; eauto.
  - apply emits_writable_exit.
    + simpl. auto.
    + intros e He. unfold guard_call, canaries. rewrite He. simpl. auto.
Qed.
